(** * The WhatsApp -> Telegram media bridge (server.js)

    A shallow embedding of the forwarding pipeline of [server.js]: the pure
    helpers ([sanitizeFileName], [getTelegramSendMethod], [estimateFileSize],
    [generateCaption]), the retry wrapper [withRetry] and the ['message']
    handler, followed by the properties the specification states about them.

    Conventions.
    - A JavaScript string is a [string], a sequence of units.  Every string
      operation the program uses ([length], [substring], [replace] with a
      global character-class pattern, concatenation, [===]) acts unit by
      unit, which is how it is modelled.  The literals of the program are
      written as the source has them; no property below depends on how many
      units a non-ASCII character of a literal takes.
    - Numbers that the program only uses as integers (lengths, loop counters,
      the clock) are [nat], [N] or [Z].  The one fractional computation, in
      [estimateFileSize], is carried out in [Q]: it multiplies an integer by
      3 and divides by powers of two, all of which binary64 does exactly for
      any length below 2^53 / 3.
    - Asynchronous code is run to completion: an [await]ed call is a state
      transformer that either returns or throws. *)

From Stdlib Require Import Bool Arith NArith ZArith QArith Qround Lia List.
From Stdlib Require Import Ascii String DecimalString.
From Stdlib Require Import DecimalFacts DecimalPos DecimalN Lqa.
Import ListNotations.

Local Close Scope Q_scope.
Local Open Scope string_scope.

(** ** JavaScript string primitives *)

Module Js.

(** ["\n"] *)
Definition nl : string := String (ascii_of_nat 10) EmptyString.

(** [s.substring(0, n)] for a non-negative integer [n]. *)
Definition substring0 (n : nat) (s : string) : string := substring 0 n s.

(** [s.replace(/[cls]/g, r)] for a character class [cls] and a
    one-character replacement [r]: every unit in the class is replaced. *)
Fixpoint replace_class (cls : ascii -> bool) (r : ascii) (s : string) : string :=
  match s with
  | EmptyString => EmptyString
  | String c s' => String (if cls c then r else c) (replace_class cls r s')
  end.

(** [s.replace(c, r)] for a one-character string pattern [c]: only the
    first occurrence is replaced (a string pattern is never global). *)
Fixpoint replace_first (c : ascii) (r : string) (s : string) : string :=
  match s with
  | EmptyString => EmptyString
  | String a s' =>
      if Ascii.eqb a c then r ++ s' else String a (replace_first c r s')
  end.

(** [`${n}`] for a non-negative integer below 10^21: its decimal digits. *)
Definition string_of_N (n : N) : string :=
  NilZero.string_of_uint (N.to_uint n).

(** [`${z}`] for an integer of magnitude below 10^21. *)
Definition string_of_Z (z : Z) : string :=
  NilZero.string_of_int (Z.to_int z).

(** [c.repeat(n)] for a one-character string [c]. *)
Fixpoint repeat (c : ascii) (n : nat) : string :=
  match n with
  | O => EmptyString
  | S n' => String c (repeat c n')
  end.

(** [Math.round] on an exact rational: the nearest integer, a tie going
    towards +infinity. *)
Definition Math_round (q : Q) : Z := Qfloor (q + (1 # 2)).

End Js.

(** ** Configuration and constants (server.js, lines 6-30) *)

Definition MAX_FILE_SIZE_MB : Z := 50.
Definition RETRY_ATTEMPTS : nat := 3.
Definition RETRY_DELAY_MS : Z := 1000.

Definition SUPPORTED_MEDIA_TYPES : list string :=
  ["image"; "video"; "audio"; "document"; "sticker"].

(** [SUPPORTED_MEDIA_TYPES.includes(t)] *)
Definition includes (l : list string) (t : string) : bool :=
  existsb (String.eqb t) l.

(** ** Utility functions (server.js, lines 32-55 and 85-89) *)

(** The complement of the class [[^a-zA-Z0-9._-]]. *)
Definition filename_char (c : ascii) : bool :=
  ((("a" <=? c) && (c <=? "z")) ||
   (("A" <=? c) && (c <=? "Z")) ||
   (("0" <=? c) && (c <=? "9")) ||
   Ascii.eqb c "." || Ascii.eqb c "_" || Ascii.eqb c "-")%char.

(** [sanitizeFileName(filename)].  [filename] is a string, [undefined] or
    [null] ([None]); [!filename] holds for [None] and for the empty string.
    [now] is what [Date.now()] returns: whole milliseconds since the epoch. *)
Definition sanitizeFileName (now : N) (filename : option string) : string :=
  match filename with
  | None | Some EmptyString => "media_" ++ Js.string_of_N now ++ ".bin"
  | Some f =>
      Js.substring0 64
        (Js.replace_class (fun c => negb (filename_char c)) "_" f)
  end.

(** [getTelegramSendMethod(type)] *)
Definition getTelegramSendMethod (type : string) : string :=
  if type =? "image" then "sendPhoto"
  else if type =? "video" then "sendVideo"
  else if type =? "audio" then "sendAudio"
  else "sendDocument".

(** [estimateFileSize(base64Data)] *)
Definition estimateFileSize (base64Data : string) : Z :=
  let base64Length := inject_Z (Z.of_nat (String.length base64Data)) in
  Js.Math_round ((base64Length * 3) / 4 / 1024 / 1024)%Q.

(** [generateCaption(from, timestamp)].  [toLocaleString ms] stands for
    [new Date(ms).toLocaleString('en-US')], which the runtime supplies. *)
Definition generateCaption (toLocaleString : Z -> string)
    (from : string) (timestamp : Z) : string :=
  let date := toLocaleString (timestamp * 1000)%Z in
  Js.substring0 200
    ("Media from WhatsApp:" ++ Js.nl ++ "From: " ++ from ++ Js.nl ++ "Time: " ++ date).

(** ** Effects

    What the program does to the outside world, in the order it does it. *)

Record JsError := { message : string; stack : string }.

Record SendOptions :=
  { opt_caption : string; opt_contentType : string; opt_filename : string }.

Inductive Effect :=
| console_log (line : string)
| console_warn (line : string)
| console_error (line : string) (details : list (string * string))
| setTimeout (ms : Z)                       (* an awaited timer *)
| msg_downloadMedia
| msg_reply (text : string)
| telegram_send (method chatId base64 : string) (options : SendOptions).

(** The world: the effects so far, oldest first, and the state [U] of
    whatever the running actions talk to. *)
Record World (U : Type) := { trace : list Effect; ext : U }.
Arguments trace {U} _.
Arguments ext {U} _.

Inductive Outcome (A : Type) :=
| Returned (a : A)
| Thrown (e : JsError).
Arguments Returned {A} _.
Arguments Thrown {A} _.

(** An [async] computation, run to completion. *)
Definition Async (U A : Type) := World U -> Outcome A * World U.

Definition ret {U A} (a : A) : Async U A := fun w => (Returned a, w).

Definition bind {U A B} (c : Async U A) (k : A -> Async U B) : Async U B :=
  fun w =>
    match c w with
    | (Returned a, w1) => k a w1
    | (Thrown e, w1) => (Thrown e, w1)
    end.

(** [try { c } catch (error) { h error }] *)
Definition try_catch {U A} (c : Async U A) (h : JsError -> Async U A) : Async U A :=
  fun w =>
    match c w with
    | (Returned a, w1) => (Returned a, w1)
    | (Thrown e, w1) => h e w1
    end.

Definition emit {U} (e : Effect) : Async U unit :=
  fun w => (Returned tt, {| trace := trace w ++ [e]; ext := ext w |}).

Declare Scope async_scope.
Delimit Scope async_scope with async.
Notation "x <- c ;; k" := (bind c (fun x => k))
  (at level 61, c at next level, right associativity) : async_scope.
Notation "c ;; k" := (bind c (fun _ => k))
  (at level 61, right associativity) : async_scope.
Local Open Scope async_scope.

(** ** The retry wrapper (server.js, lines 57-68) *)

Section WithRetry.
Context {U A : Type}.

(** The loop [for (let i = ...; i < attempts; i++)] from the value [i] of
    its counter, with [todo = attempts - i] iterations still allowed by the
    loop condition.  Falling off the loop returns [undefined] ([None]).
    The [try] block holds the call only; the iterations that follow a caught
    error are written at the end of the handler, which catches nothing of
    them. *)
Fixpoint withRetry_from (operation : Async U A) (attempts todo i : nat)
    : Async U (option A) :=
  match todo with
  | O => ret None
  | S todo' =>
      try_catch
        (r <- operation ;; ret (Some r))
        (fun error =>
           if (i =? attempts - 1)%nat then (fun w => (Thrown error, w))
           else
             emit (console_warn
                     ("⚠️ Retry " ++ Js.string_of_N (N.of_nat (i + 1)) ++ "/"
                      ++ Js.string_of_N (N.of_nat attempts)
                      ++ " due to error: " ++ message error)) ;;
             emit (setTimeout RETRY_DELAY_MS) ;;
             withRetry_from operation attempts todo' (i + 1))
  end.

(** [withRetry(operation, attempts)] *)
Definition withRetry (operation : Async U A) (attempts : nat)
    : Async U (option A) :=
  withRetry_from operation attempts attempts 0.

End WithRetry.

(** ** Collaborators

    The two libraries the program drives, as far as the handler sees them. *)

(** [process.env] *)
Record ProcessEnv :=
  { env_TELEGRAM_USER_ID : string;
    env_WHATSAPP_PHONE : option string }.

(** [process.env.WHATSAPP_PHONE || '+98XXXXXXXXXX'] *)
Definition WHATSAPP_PHONE (env : ProcessEnv) : string :=
  match env_WHATSAPP_PHONE env with
  | None | Some EmptyString => "+98XXXXXXXXXX"
  | Some phone => phone
  end.

Definition TELEGRAM_USER_ID (env : ProcessEnv) : string :=
  env_TELEGRAM_USER_ID env.

(** What [msg.downloadMedia()] resolves to. *)
Record MessageMedia :=
  { media_data : string;                (* base64 text *)
    media_mimetype : string;
    media_filename : option string }.

(** An inbound message.  [msg_downloadMedia_result] is what awaiting
    [msg.downloadMedia()] gives for this message: a media object,
    [undefined] ([Returned None]), or a rejection.  [msg_hasMedia] is the
    flag the message comes with; the handler never reads it. *)
Record Message :=
  { msg_from : string;
    msg_type : string;
    msg_t : Z;
    msg_hasMedia : bool;
    msg_downloadMedia_result : Outcome (option MessageMedia) }.

(** The runtime and the Telegram client.  [telegramBot n method chatId data
    options] is the outcome of the call [telegramBot[method](chatId,
    Buffer.from(data, 'base64'), options)] when [n] calls were made before
    it: [None] when the promise resolves, [Some e] when it rejects with [e]. *)
Record Runtime :=
  { Date_now : N;
    toLocaleString : Z -> string;
    telegramBot : nat -> string -> string -> string -> SendOptions -> option JsError }.

(** ** Sending (server.js, lines 70-83) *)

(** The arrow function handed to [withRetry]: one call of the Telegram
    client.  The world's [ext] counts the calls made so far. *)
Definition telegram_call (rt : Runtime) (sendMethod chatId mediaBuffer : string)
    (options : SendOptions) : Async nat unit :=
  fun w =>
    let w1 := {| trace := trace w ++ [telegram_send sendMethod chatId mediaBuffer options];
                 ext := S (ext w) |} in
    match telegramBot rt (ext w) sendMethod chatId mediaBuffer options with
    | None => (Returned tt, w1)
    | Some e => (Thrown e, w1)
    end.

(** [sendMediaToTelegram(mediaBuffer, mimeType, fileName, caption, mediaType)] *)
Definition sendMediaToTelegram (env : ProcessEnv) (rt : Runtime)
    (mediaBuffer mimeType fileName caption mediaType : string) : Async nat unit :=
  let sendMethod := getTelegramSendMethod mediaType in
  emit (console_log
          ("📤 Sending " ++ mediaType ++ " to Telegram (filename: " ++ fileName
           ++ ", size: " ++ Js.string_of_Z (estimateFileSize mediaBuffer) ++ "MB)")) ;;
  withRetry
    (telegram_call rt sendMethod (TELEGRAM_USER_ID env) mediaBuffer
       {| opt_caption := Js.substring0 200 caption;
          opt_contentType := mimeType;
          opt_filename := fileName |})
    RETRY_ATTEMPTS ;;
  emit (console_log "✅ Media sent to Telegram successfully").

(** ** The message handler (server.js, lines 91-145) *)

(** [await msg.downloadMedia()] *)
Definition downloadMedia (msg : Message) : Async nat (option MessageMedia) :=
  fun w =>
    (msg_downloadMedia_result msg,
     {| trace := trace w ++ [msg_downloadMedia]; ext := ext w |}).

(** [msg.reply(text)]: the call is not awaited, so nothing it does later can
    reach the handler. *)
Definition reply (text : string) : Async nat unit := emit (msg_reply text).

(** [whatsappClient.on('message', async (msg) => ...)] *)
Definition on_message (env : ProcessEnv) (rt : Runtime) (msg : Message)
    : Async nat unit :=
  let normalizedWhatsAppPhone := Js.replace_first "+" "" (WHATSAPP_PHONE env) in
  if negb (msg_from msg =? normalizedWhatsAppPhone ++ "@c.us") then
    emit (console_log
            ("⏩ Skipping message from " ++ msg_from msg ++ ": Not from "
             ++ WHATSAPP_PHONE env))
  else if includes SUPPORTED_MEDIA_TYPES (msg_type msg) then
    emit (console_log
            ("📥 Incoming media from " ++ msg_from msg ++ ": " ++ msg_type msg)) ;;
    try_catch
      (media <- downloadMedia msg ;;
       match media with
       | None =>
           emit (console_error "❌ Failed to download media" []) ;;
           reply "❌ Error downloading media."
       | Some media =>
           let fileSizeMB := estimateFileSize (media_data media) in
           if (fileSizeMB >? MAX_FILE_SIZE_MB)%Z then
             emit (console_error
                     ("❌ File too large: " ++ Js.string_of_Z fileSizeMB
                      ++ "MB exceeds " ++ Js.string_of_Z MAX_FILE_SIZE_MB ++ "MB") []) ;;
             reply ("❌ File is too large (" ++ Js.string_of_Z fileSizeMB
                    ++ "MB). Maximum allowed is " ++ Js.string_of_Z MAX_FILE_SIZE_MB
                    ++ "MB.")
           else
             let sanitizedFileName := sanitizeFileName (Date_now rt) (media_filename media) in
             let caption := generateCaption (toLocaleString rt) (msg_from msg) (msg_t msg) in
             sendMediaToTelegram env rt
               (media_data media) (media_mimetype media) sanitizedFileName caption
               (msg_type msg) ;;
             reply "✅ Media received and sent to Telegram."
       end)
      (fun error =>
         emit (console_error
                 ("❌ Error processing media: " ++ message error)
                 [("type", msg_type msg); ("from", msg_from msg);
                  ("errorStack", stack error)]) ;;
         reply "❌ Error processing media.")
  else ret tt.

(** The world before a message arrives, and what the handler leaves. *)
Definition idle : World nat := {| trace := []; ext := 0 |}.

Definition handle (env : ProcessEnv) (rt : Runtime) (msg : Message) : list Effect :=
  trace (snd (on_message env rt msg idle)).

(** The replies and the Telegram calls among some effects. *)
Definition replies (tr : list Effect) : list string :=
  flat_map (fun e => match e with msg_reply text => [text] | _ => [] end) tr.

Definition deliveries (tr : list Effect) : list Effect :=
  flat_map (fun e => match e with telegram_send _ _ _ _ => [e] | _ => [] end) tr.

Definition warnings (tr : list Effect) : list string :=
  flat_map (fun e => match e with console_warn line => [line] | _ => [] end) tr.

(** ** Vocabulary of the specification *)

(** [z] is [q] rounded to the nearest integer, a half rounding up. *)
Definition rounds_to (q : Q) (z : Z) : Prop :=
  (q - (1 # 2) < inject_Z z)%Q /\ (inject_Z z <= q + (1 # 2))%Q.

(** The specification's [len(data) * 3 / 4 / 1024 / 1024]. *)
Definition mebibytes (data : string) : Q :=
  (inject_Z (Z.of_nat (String.length data)) * 3 / 4 / 1024 / 1024)%Q.

(** Every unit of [s] satisfies [p]. *)
Fixpoint all_chars (p : ascii -> bool) (s : string) : bool :=
  match s with
  | EmptyString => true
  | String c s' => p c && all_chars p s'
  end.

Definition is_digit (c : ascii) : bool := (("0" <=? c) && (c <=? "9"))%char.

(** [s] matches [media_<digits>.bin], with at least one digit. *)
Definition is_placeholder (s : string) : Prop :=
  exists digits,
    digits <> "" /\ all_chars is_digit digits = true /\
    s = "media_" ++ digits ++ ".bin".

(** [sub] occurs in [s]. *)
Definition contains (s sub : string) : Prop :=
  exists pre post, s = pre ++ sub ++ post.

(** The [k] low decimal digits of [n], least significant first: the
    numeral that the decimal printer is compared with. *)
Definition push_digit (r : N) (d : Decimal.uint) : Decimal.uint :=
  match r with
  | 0%N => Decimal.D0 d | 1%N => Decimal.D1 d | 2%N => Decimal.D2 d
  | 3%N => Decimal.D3 d | 4%N => Decimal.D4 d | 5%N => Decimal.D5 d
  | 6%N => Decimal.D6 d | 7%N => Decimal.D7 d | 8%N => Decimal.D8 d
  | _ => Decimal.D9 d
  end.

Fixpoint little_digits (k : nat) (n : N) : Decimal.uint :=
  match k with
  | O => Decimal.Nil
  | S k' => push_digit (n mod 10) (little_digits k' (n / 10))
  end.

(** *** The sender filter *)

(** The address the handler compares the sender with. *)
Definition target (env : ProcessEnv) : string :=
  Js.replace_first "+" "" (WHATSAPP_PHONE env) ++ "@c.us".

(** The address as the specification words it: the configured phone with a
    leading ['+'] dropped, followed by the domain suffix. *)
Definition strip_leading_plus (phone : string) : string :=
  match phone with
  | String "+" digits => digits
  | _ => phone
  end.

Definition spec_target (env : ProcessEnv) : string :=
  strip_leading_plus (WHATSAPP_PHONE env) ++ "@c.us".

(** The filter as the specification words it, asked of any phone
    whatever its format: a sender other than [spec_target] gets a log line
    and nothing else. *)
Definition leading_plus_filter : Prop :=
  forall env rt msg,
    msg_from msg <> spec_target env ->
    exists line, handle env rt msg = [console_log line].

(** *** The type gate *)

(** The message carries no media: it says so, and downloading yields nothing. *)
Definition carries_no_media (msg : Message) : Prop :=
  msg_hasMedia msg = false /\ msg_downloadMedia_result msg = Returned None.

(** The type gate as the specification words it. *)
Definition silent_without_media : Prop :=
  forall env rt msg,
    msg_from msg = target env ->
    carries_no_media msg \/ includes SUPPORTED_MEDIA_TYPES (msg_type msg) = false ->
    replies (handle env rt msg) = [] /\ deliveries (handle env rt msg) = [].

(** *** Observing a retried action *)

(** [recorded op] is [op] with every call written down: the world's [ext]
    carries, next to the state [op] works on, the outcomes of the calls made
    so far, oldest first. *)
Definition recorded {U A} (op : Async U A) : Async (U * list (Outcome A)) A :=
  fun w =>
    let '(r, w1) := op {| trace := trace w; ext := fst (ext w) |} in
    (r, {| trace := trace w1; ext := (ext w1, (snd (ext w) ++ [r])%list) |}).

Definition calls {U A} (w : World (U * list (Outcome A))) : list (Outcome A) :=
  snd (ext w).

(** A world in which no call has been recorded yet. *)
Definition unrecorded {U A} (w : World U) : World (U * list (Outcome A)) :=
  {| trace := trace w; ext := (ext w, []) |}.

(** The errors of the failed calls, oldest first. *)
Definition failures {A} (h : list (Outcome A)) : list JsError :=
  flat_map (fun r => match r with Thrown e => [e] | Returned _ => [] end) h.

(** The line [withRetry] warns with after a failure of attempt number [n]
    (counted from 1) out of [attempts]. *)
Definition retry_warning (attempts n : nat) (error : JsError) : string :=
  "⚠️ Retry " ++ Js.string_of_N (N.of_nat n) ++ "/"
  ++ Js.string_of_N (N.of_nat attempts) ++ " due to error: " ++ message error.

(** The warnings for the errors [es] of attempts [first], [first + 1], ... *)
Definition retry_warnings (attempts first : nat) (es : list JsError) : list string :=
  map (fun '(n, e) => retry_warning attempts n e)
      (combine (seq first (List.length es)) es).

(** The action itself writes no warning. *)
Definition no_warning {U A} (op : Async U A) : Prop :=
  forall w, warnings (trace (snd (op w))) = warnings (trace w).

(** A warning per failed attempt, the last one of an exhausted run
    included, as the specification words it. *)
Definition every_failure_warned : Prop :=
  forall (U A : Type) (op : Async U A) (attempts : nat) (w : World U),
    no_warning op ->
    let w' := snd (withRetry (recorded op) attempts (unrecorded w)) in
    warnings (trace w')
    = (warnings (trace w) ++ retry_warnings attempts 1 (failures (calls w')))%list.

(** The failures that are followed by a warning: all of them, but for the
    last one when the run ends by throwing. *)
Definition warned_failures {A B} (result : Outcome B) (h : list (Outcome A))
    : list JsError :=
  match result with
  | Returned _ => failures h
  | Thrown _ => removelast (failures h)
  end.

(** *** Sample collaborators and messages *)

Definition sample_env : ProcessEnv :=
  {| env_TELEGRAM_USER_ID := "123456789";
     env_WHATSAPP_PHONE := Some "+989170000000" |}.

(** A phone number with its ['+'] not in front. *)
Definition inner_plus_env : ProcessEnv :=
  {| env_TELEGRAM_USER_ID := "123456789";
     env_WHATSAPP_PHONE := Some "98+9170000000" |}.

Definition timeout_error : JsError :=
  {| message := "ETIMEDOUT"; stack := "Error: ETIMEDOUT" |}.

(** A Telegram client that accepts every call, one that rejects the first
    two, and one that rejects them all. *)
Definition accepting_runtime : Runtime :=
  {| Date_now := 1700000000000;
     toLocaleString := fun _ => "11/14/2023, 10:13:20 PM";
     telegramBot := fun _ _ _ _ _ => None |}.

Definition flaky_runtime : Runtime :=
  {| Date_now := 1700000000000;
     toLocaleString := fun _ => "11/14/2023, 10:13:20 PM";
     telegramBot := fun n _ _ _ _ => if (n <? 2)%nat then Some timeout_error else None |}.

Definition rejecting_runtime : Runtime :=
  {| Date_now := 1700000000000;
     toLocaleString := fun _ => "11/14/2023, 10:13:20 PM";
     telegramBot := fun _ _ _ _ _ => Some timeout_error |}.

Definition small_media : MessageMedia :=
  {| media_data := "iVBORw0KGgo=";
     media_mimetype := "image/png";
     media_filename := Some "holiday photo.png" |}.

(** A payload of 111848107 base64 characters: 80 MiB by the estimate. *)
Definition large_media : MessageMedia :=
  {| media_data := Js.repeat "A" (N.to_nat 111848107);
     media_mimetype := "video/mp4";
     media_filename := Some "clip.mp4" |}.

Definition image_message (media : MessageMedia) : Message :=
  {| msg_from := "989170000000@c.us";
     msg_type := "image";
     msg_t := 1700000000;
     msg_hasMedia := true;
     msg_downloadMedia_result := Returned (Some media) |}.

Definition stranger_message : Message :=
  {| msg_from := "12025550123@c.us";
     msg_type := "image";
     msg_t := 1700000000;
     msg_hasMedia := true;
     msg_downloadMedia_result := Returned (Some small_media) |}.

(** An image message that carries no media. *)
Definition empty_image_message : Message :=
  {| msg_from := "989170000000@c.us";
     msg_type := "image";
     msg_t := 1700000000;
     msg_hasMedia := false;
     msg_downloadMedia_result := Returned None |}.

Definition text_message : Message :=
  {| msg_from := "989170000000@c.us";
     msg_type := "chat";
     msg_t := 1700000000;
     msg_hasMedia := false;
     msg_downloadMedia_result := Returned None |}.

(** An action that fails on every call, and writes nothing. *)
Definition always_failing : Async unit unit :=
  fun w => (Thrown timeout_error, w).

(** *** More views of a run *)

(** The delays awaited and the downloads requested among some effects. *)
Definition timers (tr : list Effect) : list Z :=
  flat_map (fun e => match e with setTimeout ms => [ms] | _ => [] end) tr.

Definition downloads (tr : list Effect) : list Effect :=
  flat_map (fun e => match e with msg_downloadMedia => [e] | _ => [] end) tr.

(** The options and the call of the Telegram client that the handler
    builds for the downloaded [media] (server.js, lines 72-80, with the
    arguments of lines 122-132). *)
Definition options_of (rt : Runtime) (msg : Message) (media : MessageMedia)
    : SendOptions :=
  {| opt_caption :=
       Js.substring0 200
         (generateCaption (toLocaleString rt) (msg_from msg) (msg_t msg));
     opt_contentType := media_mimetype media;
     opt_filename := sanitizeFileName (Date_now rt) (media_filename media) |}.

Definition delivery_of (env : ProcessEnv) (rt : Runtime) (msg : Message)
    (media : MessageMedia) : Effect :=
  telegram_send (getTelegramSendMethod (msg_type msg)) (TELEGRAM_USER_ID env)
    (media_data media) (options_of rt msg media).

(** What the Telegram client answers to that call when [n] calls were made
    before it. *)
Definition answer_to (env : ProcessEnv) (rt : Runtime) (msg : Message)
    (media : MessageMedia) (n : nat) : option JsError :=
  telegramBot rt n (getTelegramSendMethod (msg_type msg)) (TELEGRAM_USER_ID env)
    (media_data media) (options_of rt msg media).

(** The lines the handler logs around a delivery, and what it reports when
    the delivery is given up. *)
Definition incoming_line (msg : Message) : Effect :=
  console_log ("📥 Incoming media from " ++ msg_from msg ++ ": " ++ msg_type msg).

Definition sending_line (rt : Runtime) (msg : Message) (media : MessageMedia)
    : Effect :=
  console_log
    ("📤 Sending " ++ msg_type msg ++ " to Telegram (filename: "
     ++ sanitizeFileName (Date_now rt) (media_filename media)
     ++ ", size: " ++ Js.string_of_Z (estimateFileSize (media_data media)) ++ "MB)").

Definition processing_error (msg : Message) (error : JsError) : Effect :=
  console_error ("❌ Error processing media: " ++ message error)
    [("type", msg_type msg); ("from", msg_from msg); ("errorStack", stack error)].

(** A message whose download is rejected. *)
Definition broken_download_message : Message :=
  {| msg_from := "989170000000@c.us";
     msg_type := "video";
     msg_t := 1700000000;
     msg_hasMedia := true;
     msg_downloadMedia_result := Thrown timeout_error |}.

(** The action itself awaits no timer. *)
Definition no_timer {U A} (op : Async U A) : Prop :=
  forall w, timers (trace (snd (op w))) = timers (trace w).

(** An action that fails twice and then succeeds, counting its calls in
    the state it works on. *)
Definition third_time_lucky : Async nat string :=
  fun w =>
    (if (ext w <? 2)%nat then Thrown timeout_error else Returned "sent",
     {| trace := trace w; ext := S (ext w) |}).

(** *** Observing where a retried action is called *)

(** One call of an action: the effects before it starts, its outcome, and
    the effects when it ends. *)
Record Observation (A : Type) :=
  { before : list Effect; outcome : Outcome A; after : list Effect }.
Arguments before {A} _.
Arguments outcome {A} _.
Arguments after {A} _.

(** [observed op] is [op] with every call observed: the world's [ext]
    carries, next to the state [op] works on, the observations of the calls
    made so far, oldest first. *)
Definition observed {U A} (op : Async U A) : Async (U * list (Observation A)) A :=
  fun w =>
    let '(r, w1) := op {| trace := trace w; ext := fst (ext w) |} in
    (r, {| trace := trace w1;
           ext := (ext w1,
                   (snd (ext w)
                    ++ [{| before := trace w; outcome := r; after := trace w1 |}])%list) |}).

Definition observations {U A} (w : World (U * list (Observation A)))
    : list (Observation A) :=
  snd (ext w).

Definition unobserved {U A} (w : World U) : World (U * list (Observation A)) :=
  {| trace := trace w; ext := (ext w, []) |}.

(** What [withRetry] writes between a failure of attempt number [n] and the
    next attempt (server.js, lines 64-65). *)
Definition between_attempts (attempts n : nat) (error : JsError) : list Effect :=
  [console_warn (retry_warning attempts n error); setTimeout RETRY_DELAY_MS].

(** The observations [obs] are those of the attempts number [n], [n + 1],
    ... of a run that starts with the effects [start], ends with the effects
    [final] and gives [r]. *)
Fixpoint retry_chain {A} (attempts n : nat) (start : list Effect)
    (obs : list (Observation A)) (final : list Effect) (r : Outcome (option A))
    : Prop :=
  match obs with
  | [] => attempts < n /\ final = start /\ r = Returned None
  | o :: rest =>
      n <= attempts /\ before o = start /\
      match outcome o with
      | Returned v => rest = [] /\ final = after o /\ r = Returned (Some v)
      | Thrown e =>
          if (n =? attempts)%nat
          then rest = [] /\ final = after o /\ r = Thrown e
          else rest <> [] /\
               retry_chain attempts (S n)
                 (after o ++ between_attempts attempts n e)%list rest final r
      end
  end.

(** The calls of a delivery in the order they are made: [call], and after
    each error of [es] the warning for it, the timer and [call] again. *)
Fixpoint attempts_trace (call : Effect) (attempts n : nat) (es : list JsError)
    : list Effect :=
  match es with
  | [] => [call]
  | e :: es' =>
      (call :: between_attempts attempts n e)
      ++ attempts_trace call attempts (S n) es'
  end.

(** The phone has its ['+'] in front, or has none: the format the
    configuration expects, a leading ['+'] and digits, is of the first kind. *)
Definition plus_leads_or_absent (phone : string) : bool :=
  match phone with
  | String "+" _ => true
  | _ => all_chars (fun c => negb (Ascii.eqb c "+")) phone
  end.

(** * Properties *)

(** ** Strings *)

Lemma length_append (a b : string) :
  String.length (a ++ b) = String.length a + String.length b.
Proof. induction a as [|c a IH]; simpl; [reflexivity | now rewrite IH]. Qed.

Lemma append_assoc (a b c : string) : (a ++ b) ++ c = a ++ b ++ c.
Proof. induction a as [|x a IH]; simpl; [reflexivity | now rewrite IH]. Qed.

Lemma length_substring0 (n : nat) (s : string) :
  String.length (Js.substring0 n s) = Nat.min n (String.length s).
Proof.
  unfold Js.substring0. revert n.
  induction s as [|c s IH]; intros [|n]; simpl; try reflexivity.
  now rewrite IH.
Qed.

Lemma substring0_short (n : nat) (s : string) :
  String.length s <= n -> Js.substring0 n s = s.
Proof.
  unfold Js.substring0. revert n.
  induction s as [|c s IH]; intros [|n] H; simpl in *; try reflexivity; try lia.
  f_equal. apply IH. lia.
Qed.

Lemma substring0_append (n : nat) (a b : string) :
  String.length a <= n ->
  Js.substring0 n (a ++ b) = a ++ Js.substring0 (n - String.length a) b.
Proof.
  unfold Js.substring0. revert n.
  induction a as [|c a IH]; intros n H; simpl in *.
  - now rewrite Nat.sub_0_r.
  - destruct n as [|n]; [lia|]. simpl. f_equal. apply IH. lia.
Qed.

Lemma all_chars_substring0 (p : ascii -> bool) (n : nat) (s : string) :
  all_chars p s = true -> all_chars p (Js.substring0 n s) = true.
Proof.
  unfold Js.substring0. revert n.
  induction s as [|c s IH]; intros [|n] H; simpl in *; try reflexivity.
  apply andb_true_iff in H as [Hc Hs]. rewrite Hc. simpl. now apply IH.
Qed.

Lemma all_chars_append (p : ascii -> bool) (a b : string) :
  all_chars p (a ++ b) = all_chars p a && all_chars p b.
Proof.
  induction a as [|c a IH]; simpl; [reflexivity|].
  now rewrite IH, andb_assoc.
Qed.

Lemma all_chars_weaken (p q : ascii -> bool) (s : string) :
  (forall c, p c = true -> q c = true) ->
  all_chars p s = true -> all_chars q s = true.
Proof.
  intros Hpq. induction s as [|c s IH]; simpl; [reflexivity|].
  intros H. apply andb_true_iff in H as [Hc Hs].
  now rewrite (Hpq _ Hc), IH.
Qed.

(** ** The file-name class *)

Lemma underscore_filename_char : filename_char "_" = true.
Proof. reflexivity. Qed.

Lemma replace_class_safe (s : string) :
  all_chars filename_char
    (Js.replace_class (fun c => negb (filename_char c)) "_" s) = true.
Proof.
  induction s as [|c s IH]; simpl; [reflexivity|].
  rewrite IH, andb_true_r.
  destruct (filename_char c) eqn:E; simpl; [exact E | reflexivity].
Qed.

Lemma replace_class_fixed (s : string) :
  all_chars filename_char s = true ->
  Js.replace_class (fun c => negb (filename_char c)) "_" s = s.
Proof.
  induction s as [|c s IH]; simpl; [reflexivity|].
  intros H. apply andb_true_iff in H as [Hc Hs].
  now rewrite Hc, IH.
Qed.

Lemma is_digit_filename_char (c : ascii) :
  is_digit c = true -> filename_char c = true.
Proof.
  unfold is_digit, filename_char. intros ->.
  now rewrite orb_true_r.
Qed.

(** ** Decimal numerals *)

Lemma all_digits_string_of_uint (d : Decimal.uint) :
  all_chars is_digit (NilEmpty.string_of_uint d) = true.
Proof. induction d; simpl; auto. Qed.

Lemma length_string_of_uint (d : Decimal.uint) :
  String.length (NilEmpty.string_of_uint d) = Decimal.nb_digits d.
Proof. induction d; simpl; auto. Qed.

Lemma to_uint_nonnil (n : N) : N.to_uint n <> Decimal.Nil.
Proof.
  rewrite <- (DecimalN.Unsigned.of_to n), DecimalN.Unsigned.to_of.
  apply unorm_nonnil.
Qed.

Lemma string_of_N_eq (n : N) :
  Js.string_of_N n = NilEmpty.string_of_uint (N.to_uint n).
Proof.
  unfold Js.string_of_N, NilZero.string_of_uint.
  pose proof (to_uint_nonnil n). destruct (N.to_uint n); congruence.
Qed.

Lemma all_digits_string_of_N (n : N) :
  all_chars is_digit (Js.string_of_N n) = true.
Proof. rewrite string_of_N_eq. apply all_digits_string_of_uint. Qed.

Lemma string_of_N_nonempty (n : N) : Js.string_of_N n <> "".
Proof.
  rewrite string_of_N_eq. pose proof (to_uint_nonnil n).
  destruct (N.to_uint n); simpl; congruence.
Qed.

Lemma nb_little_digits (k : nat) (n : N) :
  Decimal.nb_digits (little_digits k n) = k.
Proof.
  revert n. induction k as [|k IH]; intros n; simpl; [reflexivity|].
  unfold push_digit.
  destruct (n mod 10)%N as [|p]; simpl; [now rewrite IH|].
  do 4 (try destruct p as [p|p|]); simpl; now rewrite IH.
Qed.

Lemma of_lu_push_digit (r : N) (d : Decimal.uint) :
  (r < 10)%N -> Unsigned.of_lu (push_digit r d) = (r + 10 * Unsigned.of_lu d)%N.
Proof.
  intros H. unfold push_digit.
  destruct r as [|p]; [reflexivity|].
  do 4 (try destruct p as [p|p|]); try reflexivity; lia.
Qed.

Lemma of_lu_little_digits (k : nat) (n : N) :
  (n < 10 ^ N.of_nat k)%N -> Unsigned.of_lu (little_digits k n) = n.
Proof.
  revert n. induction k as [|k IH]; intros n H.
  - simpl in *. lia.
  - cbn [little_digits].
    rewrite of_lu_push_digit by (apply N.mod_lt; lia).
    rewrite IH.
    + rewrite (N.div_mod n 10) at 3 by lia. lia.
    + rewrite Nat2N.inj_succ, N.pow_succ_r' in H.
      apply N.Div0.div_lt_upper_bound. lia.
Qed.

Lemma nb_digits_to_uint (k : nat) (n : N) :
  (n < 10 ^ N.of_nat (S k))%N -> Decimal.nb_digits (N.to_uint n) <= S k.
Proof.
  intros H.
  rewrite <- (of_lu_little_digits (S k) n H) at 1.
  rewrite <- Unsigned.of_lu_rev.
  change (Pos.of_uint ?d) with (N.of_uint d).
  rewrite DecimalN.Unsigned.to_of.
  etransitivity; [apply nb_digits_unorm|].
  - intros E. apply rev_nil_inv in E.
    pose proof (nb_little_digits (S k) n) as L. rewrite E in L. discriminate.
  - now rewrite nb_digits_rev, nb_little_digits.
Qed.

Lemma length_string_of_N (k : nat) (n : N) :
  (n < 10 ^ N.of_nat (S k))%N -> String.length (Js.string_of_N n) <= S k.
Proof.
  intros H. rewrite string_of_N_eq, length_string_of_uint.
  now apply nb_digits_to_uint.
Qed.

(** ** [estimateFileSize] *)

(** The estimate in integer arithmetic: three quarters of the length, in
    units of 2^20, rounded half up. *)
Lemma estimateFileSize_div (data : string) :
  estimateFileSize data
  = ((3 * Z.of_nat (String.length data) + 2097152) / 4194304)%Z.
Proof.
  unfold estimateFileSize, Js.Math_round.
  set (L := Z.of_nat (String.length data)).
  unfold Qfloor, Qplus, Qdiv, Qmult, Qinv, inject_Z. simpl.
  replace (L * 3 * 1 * 1 * 1 * 2 + 4194304)%Z with ((3 * L + 2097152) * 2)%Z by lia.
  change 8388608%Z with (4194304 * 2)%Z.
  apply Z.div_mul_cancel_r; lia.
Qed.

Lemma Math_round_rounds_to (q : Q) : rounds_to q (Js.Math_round q).
Proof.
  unfold rounds_to, Js.Math_round.
  pose proof (Qfloor_le (q + (1 # 2))) as Hle.
  pose proof (Qlt_floor (q + (1 # 2))) as Hlt.
  rewrite inject_Z_plus in Hlt.
  split; [|exact Hle].
  change (inject_Z 1) with 1%Q in Hlt. lra.
Qed.

(** C7.  For every string [data], [estimateFileSize data] is
    [length data * 3 / 4 / 1024 / 1024] rounded to the nearest integer, and
    the estimate never decreases when the length grows. *)
Theorem estimateFileSize_round_monotone (data longer : string) :
  rounds_to (mebibytes data) (estimateFileSize data) /\
  (String.length data <= String.length longer ->
   (estimateFileSize data <= estimateFileSize longer)%Z).
Proof.
  split.
  - apply Math_round_rounds_to.
  - intros Hlen. rewrite !estimateFileSize_div.
    apply Z.div_le_mono; lia.
Qed.

Lemma estimateFileSize_round_monotone_witness :
  rounds_to (mebibytes "QUJD") (estimateFileSize "QUJD") /\
  (estimateFileSize "QUJD" <= estimateFileSize "QUJDREVG")%Z.
Proof.
  destruct (estimateFileSize_round_monotone "QUJD" "QUJDREVG") as [Hround Hmono].
  split; [exact Hround | apply Hmono; simpl; lia].
Defined.

(** Ties do occur and go up: 2^21 units are 1.5 MiB and estimate to 2. *)
Example estimateFileSize_tie :
  ((3 * 2097152 + 2097152) / 4194304 = 2)%Z /\ Js.Math_round (3 # 2) = 2%Z.
Proof. split; reflexivity. Qed.

(** ** [getTelegramSendMethod] *)

(** C6.  The send method chosen for each supported media kind: image ->
    sendPhoto, video -> sendVideo, audio -> sendAudio, document and sticker
    -> sendDocument. *)
Theorem getTelegramSendMethod_supported :
  SUPPORTED_MEDIA_TYPES = ["image"; "video"; "audio"; "document"; "sticker"] /\
  getTelegramSendMethod "image" = "sendPhoto" /\
  getTelegramSendMethod "video" = "sendVideo" /\
  getTelegramSendMethod "audio" = "sendAudio" /\
  getTelegramSendMethod "document" = "sendDocument" /\
  getTelegramSendMethod "sticker" = "sendDocument".
Proof. repeat split. Qed.

(** Any other kind falls to the default of the switch. *)
Lemma getTelegramSendMethod_default (type : string) :
  type <> "image" -> type <> "video" -> type <> "audio" ->
  getTelegramSendMethod type = "sendDocument".
Proof.
  intros Hi Hv Ha. unfold getTelegramSendMethod.
  apply String.eqb_neq in Hi, Hv, Ha. now rewrite Hi, Hv, Ha.
Qed.

(** ** [sanitizeFileName] *)

Lemma sanitizeFileName_name (now : N) (c : ascii) (f : string) :
  sanitizeFileName now (Some (String c f))
  = Js.substring0 64
      (Js.replace_class (fun c => negb (filename_char c)) "_" (String c f)).
Proof. reflexivity. Qed.

Lemma sanitizeFileName_placeholder (now : N) (filename : option string) :
  filename = None \/ filename = Some "" ->
  sanitizeFileName now filename = "media_" ++ Js.string_of_N now ++ ".bin".
Proof. intros [-> | ->]; reflexivity. Qed.

Lemma placeholder_safe (now : N) :
  all_chars filename_char ("media_" ++ Js.string_of_N now ++ ".bin") = true.
Proof.
  rewrite !all_chars_append.
  rewrite (all_chars_weaken is_digit filename_char _ is_digit_filename_char
             (all_digits_string_of_N now)).
  reflexivity.
Qed.

Lemma sanitizeFileName_cases (now : N) (filename : option string) :
  (filename = None \/ filename = Some "") \/
  (exists c f, filename = Some (String c f)).
Proof.
  destruct filename as [[|c f]|]; [left; now right | right; eauto | left; now left].
Qed.

(** C8.  An absent or empty name gives [media_<digits>.bin], the digits
    being those of the clock; whatever the input, the result is made of
    characters of [[A-Za-z0-9._-]] only; a non-empty name gives at most 64
    of them, and so does the generated name for any clock reading below
    10^54 (a time value is at most 8.64e15). *)
Theorem sanitizeFileName_safe (now : N) (filename : option string) :
  (filename = None \/ filename = Some "" ->
   is_placeholder (sanitizeFileName now filename)) /\
  all_chars filename_char (sanitizeFileName now filename) = true /\
  (forall f, filename = Some f -> f <> "" ->
   String.length (sanitizeFileName now filename) <= 64) /\
  ((now < 10 ^ 54)%N -> String.length (sanitizeFileName now filename) <= 64).
Proof.
  repeat split.
  - intros H. rewrite (sanitizeFileName_placeholder now filename H).
    exists (Js.string_of_N now).
    split; [apply string_of_N_nonempty|].
    split; [apply all_digits_string_of_N | reflexivity].
  - destruct (sanitizeFileName_cases now filename) as [H | (c & f & ->)].
    + rewrite (sanitizeFileName_placeholder now filename H).
      apply placeholder_safe.
    + rewrite sanitizeFileName_name.
      apply all_chars_substring0, replace_class_safe.
  - intros f -> Hf. destruct f as [|c f]; [congruence|].
    rewrite sanitizeFileName_name, length_substring0. apply Nat.le_min_l.
  - intros Hnow.
    destruct (sanitizeFileName_cases now filename) as [H | (c & f & ->)].
    + rewrite (sanitizeFileName_placeholder now filename H).
      rewrite !length_append.
      pose proof (length_string_of_N 53 now Hnow) as Hd.
      simpl String.length in *. lia.
    + rewrite sanitizeFileName_name, length_substring0. apply Nat.le_min_l.
Qed.

Lemma sanitizeFileName_safe_witness :
  is_placeholder (sanitizeFileName 1700000000000 (Some "")) /\
  sanitizeFileName 1700000000000 None = "media_1700000000000.bin" /\
  String.length (sanitizeFileName 1700000000000 (Some "")) <= 64 /\
  String.length (sanitizeFileName 1700000000000 (Some "résumé (final).pdf")) <= 64.
Proof.
  split; [|split; [reflexivity|split]].
  - apply (sanitizeFileName_safe 1700000000000 (Some "")). now right.
  - apply (sanitizeFileName_safe 1700000000000 (Some "")). reflexivity.
  - apply (sanitizeFileName_safe 1700000000000 (Some "résumé (final).pdf")
             ) with (f := "résumé (final).pdf"); [reflexivity | discriminate].
Defined.

Example sanitizeFileName_example :
  sanitizeFileName 0 (Some "my photo (1).jpeg") = "my_photo__1_.jpeg".
Proof. reflexivity. Qed.

(** C10.  On a non-empty name sanitizing twice is sanitizing once, whatever
    the clock reads at either call. *)
Theorem sanitizeFileName_idempotent (now now' : N) (x : string) :
  x <> "" ->
  sanitizeFileName now' (Some (sanitizeFileName now (Some x)))
  = sanitizeFileName now (Some x).
Proof.
  intros Hx. destruct x as [|c x]; [congruence|].
  rewrite (sanitizeFileName_name now c x).
  set (once := Js.substring0 64 _).
  assert (Hsafe : all_chars filename_char once = true)
    by apply all_chars_substring0, replace_class_safe.
  assert (Hlen : String.length once <= 64)
    by (unfold once; rewrite length_substring0; apply Nat.le_min_l).
  assert (Hne : exists c' r, once = String c' r) by (unfold once, Js.substring0; simpl; eauto).
  destruct Hne as (c' & r & E). rewrite E in *.
  rewrite sanitizeFileName_name, (replace_class_fixed _ Hsafe).
  now apply substring0_short.
Qed.

Lemma sanitizeFileName_idempotent_witness :
  sanitizeFileName 2 (Some (sanitizeFileName 1 (Some "a b/c?.png")))
  = sanitizeFileName 1 (Some "a b/c?.png").
Proof. apply (sanitizeFileName_idempotent 1 2 "a b/c?.png"). discriminate. Defined.

(** ** [generateCaption] *)

(** C9.  The caption has at most 200 characters, and the sender occurs in
    it whenever the 27 characters of the template before the sender and the
    sender itself end by the 200th character. *)
Theorem generateCaption_bounded (toLocaleString : Z -> string)
    (from : string) (timestamp : Z) :
  String.length (generateCaption toLocaleString from timestamp) <= 200 /\
  (27 + String.length from <= 200 ->
   contains (generateCaption toLocaleString from timestamp) from).
Proof.
  unfold generateCaption. split.
  - rewrite length_substring0. apply Nat.le_min_l.
  - intros Hfit.
    set (date := toLocaleString (timestamp * 1000)%Z).
    set (head := "Media from WhatsApp:" ++ Js.nl ++ "From: ").
    replace ("Media from WhatsApp:" ++ Js.nl ++ "From: " ++ from ++ Js.nl
             ++ "Time: " ++ date)
      with ((head ++ from) ++ Js.nl ++ "Time: " ++ date)
      by (unfold head; now rewrite !append_assoc).
    rewrite substring0_append
      by (rewrite length_append; unfold head; simpl; lia).
    exists head. eexists. rewrite append_assoc. reflexivity.
Qed.

Lemma generateCaption_bounded_witness :
  String.length
    (generateCaption (fun _ => "1/1/2024, 12:00:00 AM") "989170000000@c.us" 1704067200)
  <= 200 /\
  contains
    (generateCaption (fun _ => "1/1/2024, 12:00:00 AM") "989170000000@c.us" 1704067200)
    "989170000000@c.us".
Proof.
  destruct (generateCaption_bounded (fun _ => "1/1/2024, 12:00:00 AM")
              "989170000000@c.us" 1704067200) as [Hlen Hin].
  split; [exact Hlen | apply Hin; simpl; lia].
Defined.

(** ** [withRetry] *)

Lemma warnings_app (a b : list Effect) :
  warnings (a ++ b) = (warnings a ++ warnings b)%list.
Proof. apply flat_map_app. Qed.

Lemma retry_warnings_cons (attempts first : nat) (e : JsError) (es : list JsError) :
  retry_warnings attempts first (e :: es)
  = retry_warning attempts first e :: retry_warnings attempts (S first) es.
Proof. reflexivity. Qed.

Section Retrying.
Context {U A : Type} (op : Async U A) (attempts : nat).

(** One attempt of the loop, by the outcome of the call. *)
Lemma withRetry_from_step (todo i : nat) (w : World (U * list (Outcome A))) :
  withRetry_from (recorded op) attempts (S todo) i w
  = match recorded op w with
    | (Returned v, w1) => (Returned (Some v), w1)
    | (Thrown e, w1) =>
        if (i =? attempts - 1)%nat then (Thrown e, w1)
        else
          withRetry_from (recorded op) attempts todo (i + 1)
            {| trace := (trace w1 ++ [console_warn (retry_warning attempts (i + 1) e);
                                      setTimeout RETRY_DELAY_MS])%list;
               ext := ext w1 |}
    end.
Proof.
  cbn [withRetry_from]. unfold try_catch, bind, ret, emit.
  destruct (recorded op w) as [[v|e] w1]; [reflexivity|].
  destruct (i =? attempts - 1)%nat; [reflexivity|].
  cbn [trace ext]. now rewrite <- List.app_assoc.
Qed.

Lemma recorded_calls (w : World (U * list (Outcome A))) :
  calls (snd (recorded op w)) = (calls w ++ [fst (recorded op w)])%list.
Proof.
  unfold recorded, calls.
  destruct (op _) as [r w1]. reflexivity.
Qed.

Lemma recorded_warnings (w : World (U * list (Outcome A))) :
  no_warning op ->
  warnings (trace (snd (recorded op w))) = warnings (trace w).
Proof.
  intros Hq. unfold recorded.
  specialize (Hq {| trace := trace w; ext := fst (ext w) |}).
  destruct (op _) as [r w1]. exact Hq.
Qed.

(** The whole run of the loop from counter [i]: the calls it makes are
    failures [es] followed by the call that ends it, and the warnings it
    writes are those for [es]. *)
Lemma withRetry_from_run (todo i : nat) (w : World (U * list (Outcome A))) :
  i + todo = attempts ->
  exists es,
    let r := fst (withRetry_from (recorded op) attempts todo i w) in
    let w' := snd (withRetry_from (recorded op) attempts todo i w) in
    (no_warning op ->
     warnings (trace w')
     = (warnings (trace w) ++ retry_warnings attempts (i + 1) es)%list) /\
    ((exists v, r = Returned (Some v) /\
                calls w' = (calls w ++ map Thrown es ++ [Returned v])%list /\
                List.length es < todo) \/
     (exists e, r = Thrown e /\
                calls w' = (calls w ++ map Thrown es ++ [Thrown e])%list /\
                S (List.length es) = todo) \/
     (r = Returned None /\ todo = 0 /\ es = [] /\ calls w' = calls w)).
Proof.
  revert i w. induction todo as [|todo IH]; intros i w Hi.
  - exists []. cbn. split.
    + intros _. now rewrite List.app_nil_r.
    + right. right. auto.
  - rewrite withRetry_from_step.
    pose proof (recorded_calls w) as Hc.
    pose proof (recorded_warnings w) as Hw.
    destruct (recorded op w) as [[v|e] w1]; cbn [fst snd] in *.
    + exists []. cbn [fst snd]. split.
      * intros Hq. rewrite (Hw Hq). cbn. now rewrite List.app_nil_r.
      * left. exists v. cbn. repeat split; [exact Hc | lia].
    + destruct (Nat.eqb_spec i (attempts - 1)) as [Hlast|Hmore].
      * exists []. cbn [fst snd]. split.
        -- intros Hq. rewrite (Hw Hq). cbn. now rewrite List.app_nil_r.
        -- right. left. exists e. cbn. repeat split; [exact Hc | lia].
      * destruct (IH (i + 1)
                    {| trace := (trace w1 ++ [console_warn (retry_warning attempts (i + 1) e);
                                              setTimeout RETRY_DELAY_MS])%list;
                       ext := ext w1 |}) as (es & Hwarn & Hrun); [lia|].
        exists (e :: es). cbn zeta in *.
        set (run := withRetry_from _ _ _ _ _) in *.
        split.
        -- intros Hq. rewrite (Hwarn Hq). cbn [trace].
           rewrite warnings_app, (Hw Hq), retry_warnings_cons.
           replace (i + 1 + 1) with (S (i + 1)) by lia.
           cbn. now rewrite <- List.app_assoc.
        -- assert (Hcalls : calls {| trace := (trace w1 ++ [console_warn (retry_warning attempts (i + 1) e);
                                              setTimeout RETRY_DELAY_MS])%list;
                       ext := ext w1 |} = (calls w ++ [Thrown e])%list) by exact Hc.
           rewrite Hcalls in Hrun.
           destruct Hrun as [(v & Hr & Hcs & Hlen) | [(e' & Hr & Hcs & Hlen) | (Hr & Hz & _)]].
           ++ left. exists v. repeat split; [exact Hr | | cbn; lia].
              rewrite Hcs. cbn. now rewrite <- List.app_assoc.
           ++ right. left. exists e'. repeat split; [exact Hr | | cbn; lia].
              rewrite Hcs. cbn. now rewrite <- List.app_assoc.
           ++ lia.
Qed.

End Retrying.

Lemma failures_app {A} (a b : list (Outcome A)) :
  failures (a ++ b) = (failures a ++ failures b)%list.
Proof. apply flat_map_app. Qed.

Lemma failures_thrown {A} (es : list JsError) :
  failures (map (@Thrown A) es) = es.
Proof. induction es as [|e es IH]; cbn; [reflexivity | f_equal; exact IH]. Qed.

(** C2.  With three attempts [withRetry] calls the action one to three
    times and never a fourth: the calls it makes are failures followed by
    one success, which it returns, or three failures, the third of which it
    throws. *)
Theorem withRetry_three_attempts {U A : Type} (op : Async U A) (w : World U) :
  let r := fst (withRetry (recorded op) 3 (unrecorded w)) in
  let made := calls (snd (withRetry (recorded op) 3 (unrecorded w))) in
  List.length made <= 3 /\
  ((exists v, made = [Returned v] /\ r = Returned (Some v)) \/
   (exists e1 v, made = [Thrown e1; Returned v] /\ r = Returned (Some v)) \/
   (exists e1 e2 v,
      made = [Thrown e1; Thrown e2; Returned v] /\ r = Returned (Some v)) \/
   (exists e1 e2 e3,
      made = [Thrown e1; Thrown e2; Thrown e3] /\ r = Thrown e3)).
Proof.
  cbn zeta. unfold withRetry.
  destruct (withRetry_from_run op 3 3 0 (unrecorded w) eq_refl) as (es & _ & Hrun).
  cbn zeta in Hrun.
  set (run := withRetry_from _ _ _ _ _) in *.
  change (calls (unrecorded w)) with (@nil (Outcome A)) in Hrun.
  destruct Hrun as [(v & Hr & Hcs & Hlen) | [(e & Hr & Hcs & Hlen) | (_ & Hz & _)]];
    [| |discriminate]; rewrite Hcs, Hr; cbn [app].
  - destruct es as [|e1 [|e2 [|e3 es]]]; cbn in Hlen |- *; try lia.
    + split; [lia|]. left. eauto.
    + split; [lia|]. right. left. eauto.
    + split; [lia|]. right. right. left. eauto.
  - destruct es as [|e1 [|e2 [|e3 es]]]; cbn in Hlen |- *; try lia.
    split; [lia|]. right. right. right. eauto.
Qed.

(** The same for any number of attempts: never more calls than attempts. *)
Lemma withRetry_calls_bounded {U A : Type} (op : Async U A) (attempts : nat)
    (w : World U) :
  List.length (calls (snd (withRetry (recorded op) attempts (unrecorded w))))
  <= attempts.
Proof.
  unfold withRetry.
  destruct (withRetry_from_run op attempts attempts 0 (unrecorded w) eq_refl)
    as (es & _ & Hrun).
  cbn zeta in Hrun.
  set (run := withRetry_from _ _ _ _ _) in *.
  change (calls (unrecorded w)) with (@nil (Outcome A)) in Hrun.
  destruct Hrun as [(v & _ & Hcs & Hlen) | [(e & _ & Hcs & Hlen) | (_ & _ & _ & Hcs)]];
    rewrite Hcs; cbn [app]; rewrite ?length_app, ?length_map; cbn; lia.
Qed.

(** The warnings of a run, listed.  When the action itself writes no
    warning, the warnings of a run of [withRetry] are exactly one per failed
    attempt that is followed by another attempt, each with the number of the
    attempt (from 1), the number of attempts and the error's message. *)
Theorem withRetry_warns_before_retrying {U A : Type} (op : Async U A)
    (attempts : nat) (w : World U) :
  no_warning op ->
  let r := fst (withRetry (recorded op) attempts (unrecorded w)) in
  let w' := snd (withRetry (recorded op) attempts (unrecorded w)) in
  warnings (trace w')
  = (warnings (trace w)
     ++ retry_warnings attempts 1 (warned_failures r (calls w')))%list.
Proof.
  intros Hq. cbn zeta. unfold withRetry.
  destruct (withRetry_from_run op attempts attempts 0 (unrecorded w) eq_refl)
    as (es & Hwarn & Hrun).
  cbn zeta in Hwarn, Hrun. specialize (Hwarn Hq).
  set (run := withRetry_from _ _ _ _ _) in *.
  change (calls (unrecorded w)) with (@nil (Outcome A)) in Hrun.
  change (trace (unrecorded w)) with (trace w) in Hwarn.
  rewrite Hwarn. f_equal. f_equal.
  destruct Hrun as [(v & Hr & Hcs & _) | [(e & Hr & Hcs & _) | (Hr & _ & Hes & Hcs)]];
    rewrite Hr, Hcs; cbn [warned_failures app].
  - rewrite failures_app, failures_thrown. cbn. now rewrite List.app_nil_r.
  - rewrite failures_app, failures_thrown. cbn. now rewrite removelast_last.
  - now rewrite Hes.
Qed.

Lemma withRetry_warns_before_retrying_witness :
  warnings
    (trace (snd (withRetry (recorded always_failing) 3
                   (unrecorded {| trace := []; ext := tt |}))))
  = ["⚠️ Retry 1/3 due to error: ETIMEDOUT";
     "⚠️ Retry 2/3 due to error: ETIMEDOUT"].
Proof.
  apply (withRetry_warns_before_retrying always_failing 3 {| trace := []; ext := tt |}).
  intros w. reflexivity.
Defined.

(** C5, as stated, fails on an action that fails three times out of three:
    three failed attempts, two warnings. *)
Lemma every_failure_warned_counterexample : ~ every_failure_warned.
Proof.
  intros H.
  specialize (H unit unit always_failing 3 {| trace := []; ext := tt |}
                (fun w => eq_refl)).
  vm_compute in H. discriminate H.
Qed.

Example exhausted_run :
  let run := withRetry (recorded always_failing) 3
               (unrecorded {| trace := []; ext := tt |}) in
  fst run = Thrown timeout_error /\
  calls (snd run)
  = [Thrown timeout_error; Thrown timeout_error; Thrown timeout_error] /\
  trace (snd run)
  = [console_warn "⚠️ Retry 1/3 due to error: ETIMEDOUT"; setTimeout 1000;
     console_warn "⚠️ Retry 2/3 due to error: ETIMEDOUT"; setTimeout 1000].
Proof. repeat split. Qed.

(** ** The message handler *)

(** What [withRetry] adds to the trace leaves alone every view of it that
    ignores warnings and timers and that the action leaves alone. *)
Lemma withRetry_from_keeps {U A X : Type} (view : Effect -> list X)
    (op : Async U A) (attempts : nat) :
  (forall line, view (console_warn line) = []) ->
  (forall ms, view (setTimeout ms) = []) ->
  (forall w, flat_map view (trace (snd (op w))) = flat_map view (trace w)) ->
  forall todo i w,
    flat_map view (trace (snd (withRetry_from op attempts todo i w)))
    = flat_map view (trace w).
Proof.
  intros Hwarn Htimer Hop.
  induction todo as [|todo IH]; intros i w; [reflexivity|].
  cbn [withRetry_from]. unfold try_catch, bind, ret, emit.
  specialize (Hop w). destruct (op w) as [[v|e] w1]; cbn [fst snd] in *;
    [exact Hop|].
  destruct (i =? attempts - 1)%nat; cbn [fst snd]; [exact Hop|].
  rewrite IH. cbn [trace].
  now rewrite !flat_map_app, Hop; cbn; rewrite Hwarn, Htimer, !List.app_nil_r.
Qed.

Lemma from_target (env : ProcessEnv) (msg : Message) :
  msg_from msg = target env ->
  negb (msg_from msg =? Js.replace_first "+" "" (WHATSAPP_PHONE env) ++ "@c.us")
  = false.
Proof. intros ->. unfold target. now rewrite String.eqb_refl. Qed.

Lemma not_from_target (env : ProcessEnv) (msg : Message) :
  msg_from msg <> target env ->
  negb (msg_from msg =? Js.replace_first "+" "" (WHATSAPP_PHONE env) ++ "@c.us")
  = true.
Proof. intros H. apply String.eqb_neq in H. unfold target in H. now rewrite H. Qed.

(** The filter on the address the handler computes.  A message whose
    sender is not the configured phone with its first ['+'] removed,
    followed by [@c.us], makes the handler write one log line and do nothing
    else: no reply and no call of the Telegram client. *)
Theorem foreign_sender_only_logged (env : ProcessEnv) (rt : Runtime) (msg : Message) :
  msg_from msg <> target env ->
  handle env rt msg
  = [console_log ("⏩ Skipping message from " ++ msg_from msg ++ ": Not from "
                  ++ WHATSAPP_PHONE env)] /\
  replies (handle env rt msg) = [] /\
  deliveries (handle env rt msg) = [].
Proof.
  intros H.
  assert (E : handle env rt msg
              = [console_log ("⏩ Skipping message from " ++ msg_from msg
                              ++ ": Not from " ++ WHATSAPP_PHONE env)]).
  { unfold handle, on_message. now rewrite (not_from_target env msg H). }
  rewrite E. repeat split.
Qed.

Lemma foreign_sender_only_logged_witness :
  handle sample_env accepting_runtime stranger_message
  = [console_log "⏩ Skipping message from 12025550123@c.us: Not from +989170000000"] /\
  replies (handle sample_env accepting_runtime stranger_message) = [] /\
  deliveries (handle sample_env accepting_runtime stranger_message) = [].
Proof.
  apply (foreign_sender_only_logged sample_env accepting_runtime stranger_message).
  discriminate.
Defined.

(** The two readings of the address agree on a phone that starts with
    ['+'] and on a phone without any ['+']. *)
Lemma replace_first_leading_plus (digits : string) :
  Js.replace_first "+" "" (String "+" digits) = strip_leading_plus (String "+" digits).
Proof. reflexivity. Qed.

Lemma replace_first_no_plus (phone : string) :
  all_chars (fun c => negb (Ascii.eqb c "+")) phone = true ->
  Js.replace_first "+" "" phone = strip_leading_plus phone.
Proof.
  intros H.
  assert (E : Js.replace_first "+" "" phone = phone).
  { induction phone as [|c s IH]; cbn in *; [reflexivity|].
    apply andb_true_iff in H as [Hc Hs].
    apply negb_true_iff in Hc. rewrite Hc. now rewrite IH. }
  rewrite E. destruct phone as [|c s]; [reflexivity|].
  cbn in H. apply andb_true_iff in H as [Hc _].
  apply negb_true_iff, Ascii.eqb_neq in Hc.
  unfold strip_leading_plus.
  destruct c as [[] [] [] [] [] [] [] []]; try reflexivity. congruence.
Qed.

(** The format of the phone matters to the two readings: on a phone
    whose only ['+'] is not in front the handler drops it all the same, so
    the sender ["989170000000@c.us"] is served although it differs from
    ["98+9170000000@c.us"]. *)
Lemma leading_plus_filter_needs_format : ~ leading_plus_filter.
Proof.
  intros H.
  destruct (H inner_plus_env accepting_runtime (image_message small_media))
    as [line Hline]; [discriminate|].
  vm_compute in Hline. discriminate Hline.
Qed.

Example inner_plus_run :
  spec_target inner_plus_env = "98+9170000000@c.us" /\
  target inner_plus_env = "989170000000@c.us" /\
  replies (handle inner_plus_env accepting_runtime (image_message small_media))
  = ["✅ Media received and sent to Telegram."] /\
  List.length
    (deliveries (handle inner_plus_env accepting_runtime (image_message small_media)))
  = 1.
Proof. repeat split. Qed.

Lemma handle_supported (env : ProcessEnv) (rt : Runtime) (msg : Message) :
  msg_from msg = target env ->
  includes SUPPORTED_MEDIA_TYPES (msg_type msg) = true ->
  on_message env rt msg
  = (emit (console_log
             ("📥 Incoming media from " ++ msg_from msg ++ ": " ++ msg_type msg)) ;;
     try_catch
       (media <- downloadMedia msg ;;
        match media with
        | None =>
            emit (console_error "❌ Failed to download media" []) ;;
            reply "❌ Error downloading media."
        | Some media =>
            let fileSizeMB := estimateFileSize (media_data media) in
            if (fileSizeMB >? MAX_FILE_SIZE_MB)%Z then
              emit (console_error
                      ("❌ File too large: " ++ Js.string_of_Z fileSizeMB
                       ++ "MB exceeds " ++ Js.string_of_Z MAX_FILE_SIZE_MB ++ "MB") []) ;;
              reply ("❌ File is too large (" ++ Js.string_of_Z fileSizeMB
                     ++ "MB). Maximum allowed is " ++ Js.string_of_Z MAX_FILE_SIZE_MB
                     ++ "MB.")
            else
              sendMediaToTelegram env rt
                (media_data media) (media_mimetype media)
                (sanitizeFileName (Date_now rt) (media_filename media))
                (generateCaption (toLocaleString rt) (msg_from msg) (msg_t msg))
                (msg_type msg) ;;
              reply "✅ Media received and sent to Telegram."
        end)
       (fun error =>
          emit (console_error
                  ("❌ Error processing media: " ++ message error)
                  [("type", msg_type msg); ("from", msg_from msg);
                   ("errorStack", stack error)]) ;;
          reply "❌ Error processing media."))%async.
Proof.
  intros Hfrom Hkind. unfold on_message.
  now rewrite (from_target env msg Hfrom), Hkind.
Qed.

(** The whole run on a payload above the ceiling. *)
Lemma oversized_media_trace (env : ProcessEnv) (rt : Runtime) (msg : Message)
    (media : MessageMedia) :
  msg_from msg = target env ->
  includes SUPPORTED_MEDIA_TYPES (msg_type msg) = true ->
  msg_downloadMedia_result msg = Returned (Some media) ->
  (estimateFileSize (media_data media) > MAX_FILE_SIZE_MB)%Z ->
  handle env rt msg
  = [console_log ("📥 Incoming media from " ++ msg_from msg ++ ": " ++ msg_type msg);
     msg_downloadMedia;
     console_error
       ("❌ File too large: " ++ Js.string_of_Z (estimateFileSize (media_data media))
        ++ "MB exceeds 50MB") [];
     msg_reply
       ("❌ File is too large (" ++ Js.string_of_Z (estimateFileSize (media_data media))
        ++ "MB). Maximum allowed is 50MB.")].
Proof.
  intros Hfrom Hkind Hmedia Hsize.
  unfold handle. rewrite (handle_supported env rt msg Hfrom Hkind).
  unfold bind, try_catch, emit, reply, downloadMedia, idle. cbn [trace ext fst snd app].
  rewrite Hmedia. cbn zeta.
  apply Z.gtb_gt in Hsize. rewrite Hsize. reflexivity.
Qed.

(** C3.  A message of a supported kind from the configured sender whose
    downloaded payload is estimated above [MAX_FILE_SIZE_MB] = 50 gets
    exactly one reply, which states the estimate and the ceiling, and the
    Telegram client is not called. *)
Theorem oversized_media_rejected (env : ProcessEnv) (rt : Runtime) (msg : Message)
    (media : MessageMedia) :
  msg_from msg = target env ->
  includes SUPPORTED_MEDIA_TYPES (msg_type msg) = true ->
  msg_downloadMedia_result msg = Returned (Some media) ->
  (estimateFileSize (media_data media) > MAX_FILE_SIZE_MB)%Z ->
  replies (handle env rt msg)
  = ["❌ File is too large (" ++ Js.string_of_Z (estimateFileSize (media_data media))
     ++ "MB). Maximum allowed is 50MB."] /\
  deliveries (handle env rt msg) = [].
Proof.
  intros Hfrom Hkind Hmedia Hsize.
  rewrite (oversized_media_trace env rt msg media Hfrom Hkind Hmedia Hsize).
  split; reflexivity.
Qed.

Lemma length_repeat (c : ascii) (n : nat) : String.length (Js.repeat c n) = n.
Proof. induction n as [|n IH]; cbn; [reflexivity | now rewrite IH]. Qed.

Lemma estimateFileSize_large_media :
  estimateFileSize (media_data large_media) = 80%Z.
Proof.
  rewrite estimateFileSize_div.
  unfold large_media, media_data.
  rewrite length_repeat, N_nat_Z.
  reflexivity.
Qed.

Lemma oversized_media_rejected_witness :
  replies (handle sample_env accepting_runtime (image_message large_media))
  = ["❌ File is too large (80MB). Maximum allowed is 50MB."] /\
  deliveries (handle sample_env accepting_runtime (image_message large_media)) = [].
Proof.
  assert (Hsize : (estimateFileSize (media_data large_media) > MAX_FILE_SIZE_MB)%Z)
    by (rewrite estimateFileSize_large_media; reflexivity).
  destruct (oversized_media_rejected sample_env accepting_runtime
              (image_message large_media) large_media
              eq_refl eq_refl eq_refl Hsize)
    as [Hreply Hnone].
  rewrite estimateFileSize_large_media in Hreply.
  split; [exact Hreply | exact Hnone].
Defined.

(** C4, as the code has it.  A message from the configured sender whose
    kind is outside [SUPPORTED_MEDIA_TYPES] is dropped without a trace:
    no reply, no call of the Telegram client, no log line, no download,
    whether or not the message carries media. *)
Theorem unsupported_kind_dropped (env : ProcessEnv) (rt : Runtime) (msg : Message) :
  msg_from msg = target env ->
  includes SUPPORTED_MEDIA_TYPES (msg_type msg) = false ->
  handle env rt msg = [] /\
  replies (handle env rt msg) = [] /\
  deliveries (handle env rt msg) = [].
Proof.
  intros Hfrom Hkind.
  assert (E : handle env rt msg = []).
  { unfold handle, on_message.
    now rewrite (from_target env msg Hfrom), Hkind. }
  rewrite E. repeat split.
Qed.

Lemma unsupported_kind_dropped_witness :
  handle sample_env accepting_runtime text_message = [] /\
  replies (handle sample_env accepting_runtime text_message) = [] /\
  deliveries (handle sample_env accepting_runtime text_message) = [].
Proof.
  apply (unsupported_kind_dropped sample_env accepting_runtime text_message);
    reflexivity.
Defined.

(** C4, as stated, fails on a message of a supported kind that carries no
    media: the gate looks at the kind only, the download yields nothing and
    the handler replies that the download failed. *)
Lemma silent_without_media_counterexample : ~ silent_without_media.
Proof.
  intros H.
  destruct (H sample_env accepting_runtime empty_image_message) as [Hreplies _].
  - reflexivity.
  - left. split; reflexivity.
  - vm_compute in Hreplies. discriminate Hreplies.
Qed.

Example empty_image_run :
  handle sample_env accepting_runtime empty_image_message
  = [console_log "📥 Incoming media from 989170000000@c.us: image";
     msg_downloadMedia;
     console_error "❌ Failed to download media" [];
     msg_reply "❌ Error downloading media."].
Proof. reflexivity. Qed.

(** Behind the gate nothing is silent: a message of a supported kind from
    the configured sender gets exactly one reply, however the download and
    the deliveries turn out. *)
Lemma telegram_call_no_reply (rt : Runtime) (sendMethod chatId mediaBuffer : string)
    (options : SendOptions) (w : World nat) :
  replies (trace (snd (telegram_call rt sendMethod chatId mediaBuffer options w)))
  = replies (trace w).
Proof.
  unfold telegram_call.
  destruct (telegramBot rt _ _ _ _ _); cbn [snd trace];
    unfold replies; rewrite flat_map_app; cbn; now rewrite List.app_nil_r.
Qed.

Lemma sendMediaToTelegram_no_reply (env : ProcessEnv) (rt : Runtime)
    (mediaBuffer mimeType fileName caption mediaType : string) (w : World nat) :
  replies (trace (snd (sendMediaToTelegram env rt mediaBuffer mimeType fileName
                         caption mediaType w)))
  = replies (trace w).
Proof.
  unfold sendMediaToTelegram, withRetry, bind, emit.
  set (w1 := {| trace := _; ext := ext w |}).
  set (call := telegram_call _ _ _ _ _).
  pose proof (withRetry_from_keeps
                (fun e => match e with msg_reply text => [text] | _ => [] end)
                call RETRY_ATTEMPTS (fun _ => eq_refl) (fun _ => eq_refl)
                (telegram_call_no_reply _ _ _ _ _) RETRY_ATTEMPTS 0 w1) as Hkeep.
  fold (replies (trace w1)) in Hkeep.
  destruct (withRetry_from call RETRY_ATTEMPTS RETRY_ATTEMPTS 0 w1) as [[r|e] w2];
    cbn [fst snd trace] in *.
  - unfold replies at 1. rewrite flat_map_app. fold (replies (trace w2)).
    unfold replies in Hkeep |- *. rewrite Hkeep. unfold w1. cbn [trace].
    rewrite flat_map_app. cbn. now rewrite !List.app_nil_r.
  - unfold replies in Hkeep |- *. rewrite Hkeep. unfold w1. cbn [trace].
    rewrite flat_map_app. cbn. now rewrite !List.app_nil_r.
Qed.

Lemma supported_kind_replied (env : ProcessEnv) (rt : Runtime) (msg : Message) :
  msg_from msg = target env ->
  includes SUPPORTED_MEDIA_TYPES (msg_type msg) = true ->
  exists text, replies (handle env rt msg) = [text].
Proof.
  intros Hfrom Hkind.
  unfold handle. rewrite (handle_supported env rt msg Hfrom Hkind).
  unfold bind at 1. unfold emit at 1. unfold idle. cbn [trace ext app].
  unfold try_catch, bind at 1, downloadMedia. cbn [trace ext app].
  destruct (msg_downloadMedia_result msg) as [[media|]|e].
  - cbn zeta. destruct (estimateFileSize (media_data media) >? MAX_FILE_SIZE_MB)%Z.
    + eexists. reflexivity.
    + unfold bind.
      match goal with
      | |- context [sendMediaToTelegram ?e ?r ?a ?b ?c ?d ?k ?w] =>
          pose proof (sendMediaToTelegram_no_reply e r a b c d k w) as Hsend;
          destruct (sendMediaToTelegram e r a b c d k w) as [[[]|err] w2]
      end; cbn [fst snd trace] in *.
      * eexists. unfold reply, emit. cbn [snd trace].
        unfold replies in *. rewrite flat_map_app, Hsend. reflexivity.
      * eexists. unfold reply, emit. cbn [snd trace].
        unfold replies in *. rewrite !flat_map_app, Hsend. reflexivity.
  - eexists. reflexivity.
  - eexists. reflexivity.
Qed.

(** The scenarios of the specification, run. *)
Example flaky_delivery_run :
  let run := handle sample_env flaky_runtime (image_message small_media) in
  replies run = ["✅ Media received and sent to Telegram."] /\
  List.length (deliveries run) = 3 /\
  warnings run
  = ["⚠️ Retry 1/3 due to error: ETIMEDOUT";
     "⚠️ Retry 2/3 due to error: ETIMEDOUT"].
Proof. repeat split. Qed.

Example exhausted_delivery_run :
  let run := handle sample_env rejecting_runtime (image_message small_media) in
  replies run = ["❌ Error processing media."] /\
  List.length (deliveries run) = 3 /\
  List.length (warnings run) = 2.
Proof. repeat split. Qed.

Example accepted_delivery_run :
  handle sample_env accepting_runtime (image_message small_media)
  = [console_log "📥 Incoming media from 989170000000@c.us: image";
     msg_downloadMedia;
     console_log
       "📤 Sending image to Telegram (filename: holiday_photo.png, size: 0MB)";
     telegram_send "sendPhoto" "123456789" "iVBORw0KGgo="
       {| opt_caption :=
            "Media from WhatsApp:" ++ Js.nl ++ "From: 989170000000@c.us" ++ Js.nl
            ++ "Time: 11/14/2023, 10:13:20 PM";
          opt_contentType := "image/png";
          opt_filename := "holiday_photo.png" |};
     console_log "✅ Media sent to Telegram successfully";
     msg_reply "✅ Media received and sent to Telegram."].
Proof. reflexivity. Qed.

(** * Further properties of the handler *)

(** ** The six ways a message is handled *)

Lemma handle_foreign (env : ProcessEnv) (rt : Runtime) (msg : Message) :
  msg_from msg <> target env ->
  handle env rt msg
  = [console_log ("⏩ Skipping message from " ++ msg_from msg ++ ": Not from "
                  ++ WHATSAPP_PHONE env)].
Proof.
  intros H. unfold handle, on_message. now rewrite (not_from_target env msg H).
Qed.

Lemma handle_unsupported (env : ProcessEnv) (rt : Runtime) (msg : Message) :
  msg_from msg = target env ->
  includes SUPPORTED_MEDIA_TYPES (msg_type msg) = false ->
  handle env rt msg = [].
Proof.
  intros Hfrom Hkind. unfold handle, on_message.
  now rewrite (from_target env msg Hfrom), Hkind.
Qed.

Lemma handle_no_media (env : ProcessEnv) (rt : Runtime) (msg : Message) :
  msg_from msg = target env ->
  includes SUPPORTED_MEDIA_TYPES (msg_type msg) = true ->
  msg_downloadMedia_result msg = Returned None ->
  handle env rt msg
  = [incoming_line msg; msg_downloadMedia;
     console_error "❌ Failed to download media" [];
     msg_reply "❌ Error downloading media."].
Proof.
  intros Hfrom Hkind Hmedia.
  unfold handle. rewrite (handle_supported env rt msg Hfrom Hkind).
  unfold bind, try_catch, emit, reply, downloadMedia, idle. cbn [trace ext fst snd app].
  rewrite Hmedia. reflexivity.
Qed.

Lemma handle_download_rejected (env : ProcessEnv) (rt : Runtime) (msg : Message)
    (error : JsError) :
  msg_from msg = target env ->
  includes SUPPORTED_MEDIA_TYPES (msg_type msg) = true ->
  msg_downloadMedia_result msg = Thrown error ->
  handle env rt msg
  = [incoming_line msg; msg_downloadMedia; processing_error msg error;
     msg_reply "❌ Error processing media."].
Proof.
  intros Hfrom Hkind Hmedia.
  unfold handle. rewrite (handle_supported env rt msg Hfrom Hkind).
  unfold bind, try_catch, emit, reply, downloadMedia, idle. cbn [trace ext fst snd app].
  rewrite Hmedia. reflexivity.
Qed.

(** The run on a payload within the ceiling, by what the Telegram client
    answers to the first, second and third call. *)
Lemma handle_delivering (env : ProcessEnv) (rt : Runtime) (msg : Message)
    (media : MessageMedia) :
  msg_from msg = target env ->
  includes SUPPORTED_MEDIA_TYPES (msg_type msg) = true ->
  msg_downloadMedia_result msg = Returned (Some media) ->
  (estimateFileSize (media_data media) <= MAX_FILE_SIZE_MB)%Z ->
  let call := delivery_of env rt msg media in
  let done := [call; console_log "✅ Media sent to Telegram successfully";
               msg_reply "✅ Media received and sent to Telegram."] in
  handle env rt msg
  = ([incoming_line msg; msg_downloadMedia; sending_line rt msg media]
     ++ match answer_to env rt msg media 0 with
        | None => done
        | Some e1 =>
            [call; console_warn (retry_warning 3 1 e1); setTimeout 1000]
            ++ match answer_to env rt msg media 1 with
               | None => done
               | Some e2 =>
                   [call; console_warn (retry_warning 3 2 e2); setTimeout 1000]
                   ++ match answer_to env rt msg media 2 with
                      | None => done
                      | Some e3 =>
                          [call; processing_error msg e3;
                           msg_reply "❌ Error processing media."]
                      end
               end
        end)%list.
Proof.
  intros Hfrom Hkind Hmedia Hsize.
  unfold handle. rewrite (handle_supported env rt msg Hfrom Hkind).
  unfold bind at 1. unfold emit at 1. unfold idle. cbn [trace ext app].
  unfold try_catch, bind at 1, downloadMedia. cbn [trace ext app].
  rewrite Hmedia. cbn zeta.
  assert (Hle : (estimateFileSize (media_data media) >? MAX_FILE_SIZE_MB)%Z = false)
    by (rewrite Z.gtb_ltb; apply Z.ltb_ge; exact Hsize).
  rewrite Hle.
  unfold sendMediaToTelegram, withRetry, RETRY_ATTEMPTS. cbn [withRetry_from].
  unfold bind, try_catch, ret, emit, reply, telegram_call. cbn [trace ext fst snd].
  unfold answer_to, delivery_of, options_of.
  destruct (telegramBot rt 0 _ _ _ _) as [e1|]; [|reflexivity].
  cbn [Nat.eqb Nat.sub Nat.add trace ext fst snd].
  destruct (telegramBot rt 1 _ _ _ _) as [e2|]; [|reflexivity].
  cbn [Nat.eqb Nat.sub Nat.add trace ext fst snd].
  destruct (telegramBot rt 2 _ _ _ _) as [e3|]; reflexivity.
Qed.

(** Case analysis on how [handle env rt msg] goes: the goal is rewritten
    with the trace of each of the ways. *)
Ltac by_handling env rt msg :=
  let Hfrom := fresh "Hfrom" in
  let Hkind := fresh "Hkind" in
  let Hmedia := fresh "Hmedia" in
  let Hsize := fresh "Hsize" in
  let media := fresh "media" in
  let error := fresh "error" in
  destruct (String.eqb_spec (msg_from msg) (target env)) as [Hfrom|Hfrom];
  [ destruct (includes SUPPORTED_MEDIA_TYPES (msg_type msg)) eqn:Hkind;
    [ destruct (msg_downloadMedia_result msg) as [[media|]|error] eqn:Hmedia;
      [ destruct (Z_gt_le_dec (estimateFileSize (media_data media)) MAX_FILE_SIZE_MB)
          as [Hsize|Hsize];
        [ rewrite (oversized_media_trace env rt msg media Hfrom Hkind Hmedia Hsize)
        | rewrite (handle_delivering env rt msg media Hfrom Hkind Hmedia Hsize);
          cbn zeta ]
      | rewrite (handle_no_media env rt msg Hfrom Hkind Hmedia)
      | rewrite (handle_download_rejected env rt msg error Hfrom Hkind Hmedia) ]
    | rewrite (handle_unsupported env rt msg Hfrom Hkind) ]
  | rewrite (handle_foreign env rt msg Hfrom) ].

Ltac by_answers env rt msg media :=
  let e1 := fresh "e1" in
  let e2 := fresh "e2" in
  let e3 := fresh "e3" in
  let A0 := fresh "A0" in
  let A1 := fresh "A1" in
  let A2 := fresh "A2" in
  destruct (answer_to env rt msg media 0) as [e1|] eqn:A0;
  [ destruct (answer_to env rt msg media 1) as [e2|] eqn:A1;
    [ destruct (answer_to env rt msg media 2) as [e3|] eqn:A2 | ] | ].

(** ** What the handler does at most, and at least *)

(** However a message is handled, it is downloaded at most once, delivered
    with at most [RETRY_ATTEMPTS] calls of the Telegram client and answered
    at most once. *)
Theorem handler_calls_bounded (env : ProcessEnv) (rt : Runtime) (msg : Message) :
  List.length (downloads (handle env rt msg)) <= 1 /\
  List.length (deliveries (handle env rt msg)) <= RETRY_ATTEMPTS /\
  List.length (replies (handle env rt msg)) <= 1.
Proof.
  unfold RETRY_ATTEMPTS.
  by_handling env rt msg; try (cbn; lia).
  by_answers env rt msg media; cbn; lia.
Qed.

(** A message is answered exactly when it comes from the configured sender
    and is of a supported kind; then it is answered once. *)
Theorem handler_replies_once (env : ProcessEnv) (rt : Runtime) (msg : Message) :
  (msg_from msg = target env /\
   includes SUPPORTED_MEDIA_TYPES (msg_type msg) = true /\
   exists text, replies (handle env rt msg) = [text]) \/
  ((msg_from msg <> target env \/
    includes SUPPORTED_MEDIA_TYPES (msg_type msg) = false) /\
   replies (handle env rt msg) = []).
Proof.
  by_handling env rt msg;
    try (left; split; [assumption|]; split; [reflexivity|]; eexists; reflexivity);
    try (right; split; [auto | reflexivity]).
  left. split; [assumption|]. split; [reflexivity|].
  by_answers env rt msg media; eexists; reflexivity.
Qed.

(** The timers and the warnings of the handler, counted: all timers are
    [RETRY_DELAY_MS], and there are as many timers, and as many warnings, as
    calls of the Telegram client but one. *)
Theorem handler_waits_between_calls (env : ProcessEnv) (rt : Runtime) (msg : Message) :
  timers (handle env rt msg)
  = List.repeat RETRY_DELAY_MS (List.length (deliveries (handle env rt msg)) - 1) /\
  List.length (warnings (handle env rt msg))
  = List.length (deliveries (handle env rt msg)) - 1.
Proof.
  by_handling env rt msg; try (split; reflexivity).
  by_answers env rt msg media; split; reflexivity.
Qed.

(** ** What reaches Telegram *)

(** Every call of the Telegram client is the delivery of the media that was
    downloaded for this message, which comes from the configured sender, is
    of a supported kind and is estimated within the ceiling. *)
Theorem deliveries_are_checked (env : ProcessEnv) (rt : Runtime) (msg : Message)
    (call : Effect) :
  In call (deliveries (handle env rt msg)) ->
  msg_from msg = target env /\
  includes SUPPORTED_MEDIA_TYPES (msg_type msg) = true /\
  exists media,
    msg_downloadMedia_result msg = Returned (Some media) /\
    (estimateFileSize (media_data media) <= MAX_FILE_SIZE_MB)%Z /\
    call = delivery_of env rt msg media.
Proof.
  revert call.
  by_handling env rt msg; try (cbn; intros call []).
  intros call Hin.
  split; [assumption|]. split; [reflexivity|].
  exists media. split; [reflexivity|]. split; [assumption|].
  revert Hin.
  by_answers env rt msg media; cbn; intuition congruence.
Qed.

Lemma deliveries_are_checked_witness :
  msg_from (image_message small_media) = target sample_env /\
  includes SUPPORTED_MEDIA_TYPES (msg_type (image_message small_media)) = true /\
  exists media,
    msg_downloadMedia_result (image_message small_media) = Returned (Some media) /\
    (estimateFileSize (media_data media) <= MAX_FILE_SIZE_MB)%Z /\
    delivery_of sample_env flaky_runtime (image_message small_media) small_media
    = delivery_of sample_env flaky_runtime (image_message small_media) media.
Proof.
  apply (deliveries_are_checked sample_env flaky_runtime (image_message small_media)).
  left. reflexivity.
Defined.

(** The fields of a delivery: one of the four send methods, the media as
    downloaded, the generated caption unchanged by the second truncation and
    at most 200 long, and a file name that is not empty and made of
    characters of the file-name class. *)
Theorem delivery_well_formed (env : ProcessEnv) (rt : Runtime) (msg : Message)
    (media : MessageMedia) :
  exists method options,
    delivery_of env rt msg media
    = telegram_send method (TELEGRAM_USER_ID env) (media_data media) options /\
    In method ["sendPhoto"; "sendVideo"; "sendAudio"; "sendDocument"] /\
    opt_caption options
    = generateCaption (toLocaleString rt) (msg_from msg) (msg_t msg) /\
    String.length (opt_caption options) <= 200 /\
    opt_contentType options = media_mimetype media /\
    opt_filename options <> "" /\
    all_chars filename_char (opt_filename options) = true.
Proof.
  exists (getTelegramSendMethod (msg_type msg)), (options_of rt msg media).
  assert (Hcap : String.length
                   (generateCaption (toLocaleString rt) (msg_from msg) (msg_t msg))
                 <= 200)
    by (unfold generateCaption; rewrite length_substring0; apply Nat.le_min_l).
  assert (Hsame : opt_caption (options_of rt msg media)
                  = generateCaption (toLocaleString rt) (msg_from msg) (msg_t msg))
    by (apply substring0_short; exact Hcap).
  split; [reflexivity|]. split.
  - unfold getTelegramSendMethod.
    destruct (msg_type msg =? "image"); [cbn; auto|].
    destruct (msg_type msg =? "video"); [cbn; auto|].
    destruct (msg_type msg =? "audio"); cbn; auto.
  - split; [exact Hsame|]. split; [now rewrite Hsame|]. split; [reflexivity|].
    cbn [options_of opt_filename].
    destruct (sanitizeFileName_cases (Date_now rt) (media_filename media))
      as [H | (c & f & ->)].
    + rewrite (sanitizeFileName_placeholder _ _ H).
      split; [discriminate | apply placeholder_safe].
    + rewrite sanitizeFileName_name. split.
      * unfold Js.substring0. cbn. discriminate.
      * apply all_chars_substring0, replace_class_safe.
Qed.

(** ** Failures of the download *)

(** When the download yields nothing the handler says so once and stops:
    no second download, no call of the Telegram client. *)
Theorem download_nothing_answered (env : ProcessEnv) (rt : Runtime) (msg : Message) :
  msg_from msg = target env ->
  includes SUPPORTED_MEDIA_TYPES (msg_type msg) = true ->
  msg_downloadMedia_result msg = Returned None ->
  replies (handle env rt msg) = ["❌ Error downloading media."] /\
  downloads (handle env rt msg) = [msg_downloadMedia] /\
  deliveries (handle env rt msg) = [] /\
  In (console_error "❌ Failed to download media" []) (handle env rt msg).
Proof.
  intros Hfrom Hkind Hmedia.
  rewrite (handle_no_media env rt msg Hfrom Hkind Hmedia).
  repeat split. cbn. auto.
Qed.

Lemma download_nothing_answered_witness :
  replies (handle sample_env accepting_runtime empty_image_message)
  = ["❌ Error downloading media."] /\
  downloads (handle sample_env accepting_runtime empty_image_message)
  = [msg_downloadMedia] /\
  deliveries (handle sample_env accepting_runtime empty_image_message) = [] /\
  In (console_error "❌ Failed to download media" [])
     (handle sample_env accepting_runtime empty_image_message).
Proof.
  apply (download_nothing_answered sample_env accepting_runtime empty_image_message);
    reflexivity.
Defined.

(** When the download is rejected the error is caught: its message and
    stack are logged with the kind and the sender, the sender gets the
    generic reply, and nothing is retried or delivered. *)
Theorem download_rejection_caught (env : ProcessEnv) (rt : Runtime) (msg : Message)
    (error : JsError) :
  msg_from msg = target env ->
  includes SUPPORTED_MEDIA_TYPES (msg_type msg) = true ->
  msg_downloadMedia_result msg = Thrown error ->
  handle env rt msg
  = [incoming_line msg; msg_downloadMedia;
     console_error ("❌ Error processing media: " ++ message error)
       [("type", msg_type msg); ("from", msg_from msg);
        ("errorStack", stack error)];
     msg_reply "❌ Error processing media."].
Proof.
  intros Hfrom Hkind Hmedia.
  exact (handle_download_rejected env rt msg error Hfrom Hkind Hmedia).
Qed.

Lemma download_rejection_caught_witness :
  handle sample_env accepting_runtime broken_download_message
  = [console_log "📥 Incoming media from 989170000000@c.us: video";
     msg_downloadMedia;
     console_error "❌ Error processing media: ETIMEDOUT"
       [("type", "video"); ("from", "989170000000@c.us");
        ("errorStack", "Error: ETIMEDOUT")];
     msg_reply "❌ Error processing media."].
Proof.
  apply (download_rejection_caught sample_env accepting_runtime
           broken_download_message timeout_error); reflexivity.
Defined.

(** ** Deliveries *)

(** When the Telegram client rejects the first [k] calls and accepts the
    next one, [k] being 0, 1 or 2, the handler makes exactly [k + 1] calls,
    warns [k] times and acknowledges. *)
Theorem delivery_acknowledged (env : ProcessEnv) (rt : Runtime) (msg : Message)
    (media : MessageMedia) (k : nat) :
  msg_from msg = target env ->
  includes SUPPORTED_MEDIA_TYPES (msg_type msg) = true ->
  msg_downloadMedia_result msg = Returned (Some media) ->
  (estimateFileSize (media_data media) <= MAX_FILE_SIZE_MB)%Z ->
  k < RETRY_ATTEMPTS ->
  (forall j, j < k -> answer_to env rt msg media j <> None) ->
  answer_to env rt msg media k = None ->
  replies (handle env rt msg) = ["✅ Media received and sent to Telegram."] /\
  deliveries (handle env rt msg)
  = List.repeat (delivery_of env rt msg media) (S k) /\
  List.length (warnings (handle env rt msg)) = k.
Proof.
  intros Hfrom Hkind Hmedia Hsize Hk Hbefore Hat.
  rewrite (handle_delivering env rt msg media Hfrom Hkind Hmedia Hsize). cbn zeta.
  unfold RETRY_ATTEMPTS in Hk.
  destruct k as [|[|[|k]]]; [| | |lia].
  - rewrite Hat. repeat split.
  - pose proof (Hbefore 0 ltac:(lia)) as H0.
    destruct (answer_to env rt msg media 0); [|congruence].
    rewrite Hat. repeat split.
  - pose proof (Hbefore 0 ltac:(lia)) as H0.
    pose proof (Hbefore 1 ltac:(lia)) as H1.
    destruct (answer_to env rt msg media 0); [|congruence].
    destruct (answer_to env rt msg media 1); [|congruence].
    rewrite Hat. repeat split.
Qed.

Lemma delivery_acknowledged_witness :
  replies (handle sample_env flaky_runtime (image_message small_media))
  = ["✅ Media received and sent to Telegram."] /\
  deliveries (handle sample_env flaky_runtime (image_message small_media))
  = List.repeat
      (delivery_of sample_env flaky_runtime (image_message small_media) small_media) 3 /\
  List.length (warnings (handle sample_env flaky_runtime (image_message small_media)))
  = 2.
Proof.
  apply (delivery_acknowledged sample_env flaky_runtime (image_message small_media)
           small_media 2); try reflexivity.
  - vm_compute. discriminate.
  - unfold RETRY_ATTEMPTS. lia.
  - intros [|[|j]] Hj; [discriminate | discriminate | lia].
Defined.

(** When the Telegram client rejects three calls the handler gives up after
    the third: three calls, a warning after the first and after the second,
    the third error logged, and the generic reply instead of the
    acknowledgement. *)
Theorem delivery_exhausted (env : ProcessEnv) (rt : Runtime) (msg : Message)
    (media : MessageMedia) (e1 e2 e3 : JsError) :
  msg_from msg = target env ->
  includes SUPPORTED_MEDIA_TYPES (msg_type msg) = true ->
  msg_downloadMedia_result msg = Returned (Some media) ->
  (estimateFileSize (media_data media) <= MAX_FILE_SIZE_MB)%Z ->
  answer_to env rt msg media 0 = Some e1 ->
  answer_to env rt msg media 1 = Some e2 ->
  answer_to env rt msg media 2 = Some e3 ->
  replies (handle env rt msg) = ["❌ Error processing media."] /\
  deliveries (handle env rt msg) = List.repeat (delivery_of env rt msg media) 3 /\
  warnings (handle env rt msg) = [retry_warning 3 1 e1; retry_warning 3 2 e2] /\
  In (processing_error msg e3) (handle env rt msg).
Proof.
  intros Hfrom Hkind Hmedia Hsize H1 H2 H3.
  rewrite (handle_delivering env rt msg media Hfrom Hkind Hmedia Hsize). cbn zeta.
  rewrite H1, H2, H3. repeat split. cbn. intuition.
Qed.

Lemma delivery_exhausted_witness :
  replies (handle sample_env rejecting_runtime (image_message small_media))
  = ["❌ Error processing media."] /\
  deliveries (handle sample_env rejecting_runtime (image_message small_media))
  = List.repeat
      (delivery_of sample_env rejecting_runtime (image_message small_media) small_media) 3 /\
  warnings (handle sample_env rejecting_runtime (image_message small_media))
  = [retry_warning 3 1 timeout_error; retry_warning 3 2 timeout_error] /\
  In (processing_error (image_message small_media) timeout_error)
     (handle sample_env rejecting_runtime (image_message small_media)).
Proof.
  apply (delivery_exhausted sample_env rejecting_runtime (image_message small_media)
           small_media timeout_error timeout_error timeout_error); try reflexivity.
  vm_compute. discriminate.
Defined.

(** The acknowledgement is never sent for a media that did not reach
    Telegram: it is the reply only when one of the calls was accepted, and
    that call is the last one made. *)
Theorem acknowledged_only_if_delivered (env : ProcessEnv) (rt : Runtime)
    (msg : Message) :
  In (msg_reply "✅ Media received and sent to Telegram.") (handle env rt msg) ->
  exists media k,
    msg_downloadMedia_result msg = Returned (Some media) /\
    k < RETRY_ATTEMPTS /\
    answer_to env rt msg media k = None /\
    List.length (deliveries (handle env rt msg)) = S k.
Proof.
  unfold RETRY_ATTEMPTS.
  by_handling env rt msg;
    try (cbn; intros H; repeat destruct H as [H|H]; try discriminate H; contradiction).
  by_answers env rt msg media; intros H.
  - cbn in H. repeat destruct H as [H|H]; try discriminate H; contradiction.
  - exists media, 2. repeat split; auto.
  - exists media, 1. repeat split; auto.
  - exists media, 0. repeat split; auto.
Qed.

Lemma acknowledged_only_if_delivered_witness :
  exists media k,
    msg_downloadMedia_result (image_message small_media) = Returned (Some media) /\
    k < RETRY_ATTEMPTS /\
    answer_to sample_env flaky_runtime (image_message small_media) media k = None /\
    List.length
      (deliveries (handle sample_env flaky_runtime (image_message small_media)))
    = S k.
Proof.
  apply (acknowledged_only_if_delivered sample_env flaky_runtime
           (image_message small_media)).
  vm_compute. tauto.
Defined.

(** * Further properties of the helpers *)

(** ** [withRetry], for any number of attempts *)

(** Whatever the number of attempts, [withRetry] stops at the first
    success, which it returns, or at the failure of the last attempt, which
    it throws; every call before the one it stops at failed.  With no
    attempt allowed it calls nothing and returns [undefined]. *)
Theorem withRetry_any_attempts {U A : Type} (op : Async U A) (attempts : nat)
    (w : World U) :
  let r := fst (withRetry (recorded op) attempts (unrecorded w)) in
  let made := calls (snd (withRetry (recorded op) attempts (unrecorded w))) in
  (attempts = 0 /\ made = [] /\ r = Returned None) \/
  (exists es v,
     List.length es < attempts /\
     made = (map Thrown es ++ [Returned v])%list /\ r = Returned (Some v)) \/
  (exists es e,
     S (List.length es) = attempts /\
     made = (map Thrown es ++ [Thrown e])%list /\ r = Thrown e).
Proof.
  cbn zeta. unfold withRetry.
  destruct (withRetry_from_run op attempts attempts 0 (unrecorded w) eq_refl)
    as (es & _ & Hrun).
  cbn zeta in Hrun.
  set (run := withRetry_from _ _ _ _ _) in *.
  change (calls (unrecorded w)) with (@nil (Outcome A)) in Hrun.
  cbn [app] in Hrun.
  destruct Hrun as [(v & Hr & Hcs & Hlen) | [(e & Hr & Hcs & Hlen) | (Hr & Hz & _ & Hcs)]].
  - right. left. exists es, v. auto.
  - right. right. exists es, e. auto.
  - left. auto.
Qed.

Lemma timers_app (a b : list Effect) :
  timers (a ++ b) = (timers a ++ timers b)%list.
Proof. apply flat_map_app. Qed.

Lemma recorded_timers {U A : Type} (op : Async U A)
    (w : World (U * list (Outcome A))) :
  no_timer op ->
  timers (trace (snd (recorded op w))) = timers (trace w).
Proof.
  intros Hq. unfold recorded.
  specialize (Hq {| trace := trace w; ext := fst (ext w) |}).
  destruct (op _) as [r w1]. exact Hq.
Qed.

Lemma withRetry_from_timers {U A : Type} (op : Async U A) (attempts : nat)
    (todo i : nat) (w : World (U * list (Outcome A))) :
  i + todo = attempts ->
  no_timer op ->
  let w' := snd (withRetry_from (recorded op) attempts todo i w) in
  timers (trace w')
  = (timers (trace w)
     ++ List.repeat RETRY_DELAY_MS
          (List.length (calls w') - List.length (calls w) - 1))%list.
Proof.
  intros Hi Hq. cbn zeta. revert i w Hi.
  induction todo as [|todo IH]; intros i w Hi.
  - cbn. rewrite Nat.sub_diag. cbn. now rewrite List.app_nil_r.
  - rewrite withRetry_from_step.
    pose proof (recorded_calls op w) as Hc.
    pose proof (recorded_timers op w Hq) as Ht.
    destruct (recorded op w) as [[v|e] w1]; cbn [fst snd] in *.
    + rewrite Ht, Hc, length_app. cbn [List.length].
      replace (_ - _ - 1) with 0 by lia. cbn. now rewrite List.app_nil_r.
    + destruct (Nat.eqb_spec i (attempts - 1)) as [Hlast|Hmore]; cbn [fst snd].
      * rewrite Ht, Hc, length_app. cbn [List.length].
        replace (_ - _ - 1) with 0 by lia. cbn. now rewrite List.app_nil_r.
      * set (w2 := {| trace := _; ext := ext w1 |}).
        assert (Hc2 : calls w2 = (calls w ++ [Thrown e])%list) by exact Hc.
        rewrite (IH (i + 1) w2) by lia.
        destruct (withRetry_from_run op attempts todo (i + 1) w2 ltac:(lia))
          as (es & _ & Hrun).
        cbn zeta in Hrun.
        set (run := withRetry_from _ _ _ _ _) in *.
        assert (Hgrow : List.length (calls w2) < List.length (calls (snd run))).
        { destruct Hrun as [(v & _ & Hcs & _) | [(e' & _ & Hcs & _) | (_ & Hz & _)]];
            [| |lia]; rewrite Hcs, !length_app; cbn; lia. }
        unfold w2 at 1. cbn [trace].
        rewrite timers_app, Ht. cbn.
        rewrite Hc2, length_app in *. cbn [List.length] in *.
        rewrite <- List.app_assoc. f_equal. cbn [app].
        replace (List.length (calls (snd run)) - List.length (calls w) - 1)
          with (S (List.length (calls (snd run)) - (List.length (calls w) + 1) - 1))
          by lia.
        reflexivity.
Qed.

(** The timers of a run, counted: when the action itself awaits no timer,
    a run of [withRetry] awaits [RETRY_DELAY_MS] as many times as it makes
    calls but one. *)
Theorem withRetry_waits_between_calls {U A : Type} (op : Async U A)
    (attempts : nat) (w : World U) :
  no_timer op ->
  let w' := snd (withRetry (recorded op) attempts (unrecorded w)) in
  timers (trace w')
  = (timers (trace w)
     ++ List.repeat RETRY_DELAY_MS (List.length (calls w') - 1))%list.
Proof.
  intros Hq. cbn zeta. unfold withRetry.
  rewrite (withRetry_from_timers op attempts attempts 0 (unrecorded w) eq_refl Hq).
  change (calls (unrecorded w)) with (@nil (Outcome A)).
  change (trace (unrecorded w)) with (trace w).
  cbn [List.length]. now rewrite Nat.sub_0_r.
Qed.

Lemma withRetry_waits_between_calls_witness :
  timers (trace (snd (withRetry (recorded third_time_lucky) 5
                        (unrecorded {| trace := []; ext := 0 |}))))
  = [1000%Z; 1000%Z].
Proof.
  apply (withRetry_waits_between_calls third_time_lucky 5 {| trace := []; ext := 0 |}).
  intros w. reflexivity.
Defined.

Example third_time_lucky_run :
  let run := withRetry (recorded third_time_lucky) 5
               (unrecorded {| trace := []; ext := 0 |}) in
  fst run = Returned (Some "sent") /\
  calls (snd run) = [Thrown timeout_error; Thrown timeout_error; Returned "sent"] /\
  warnings (trace (snd run))
  = ["⚠️ Retry 1/5 due to error: ETIMEDOUT"; "⚠️ Retry 2/5 due to error: ETIMEDOUT"].
Proof. repeat split. Qed.

(** ** [estimateFileSize] and the ceiling *)

(** The size check in terms of the payload: the handler refuses exactly the
    payloads of 70604118 base64 characters or more (50.5 MiB of data), and
    the estimate is 0 up to 699050 characters. *)
Theorem estimateFileSize_threshold (data : string) :
  ((estimateFileSize data > MAX_FILE_SIZE_MB)%Z
   <-> 70604118 <= N.of_nat (String.length data))%N /\
  (estimateFileSize data = 0%Z
   <-> N.of_nat (String.length data) <= 699050)%N.
Proof.
  rewrite estimateFileSize_div. unfold MAX_FILE_SIZE_MB.
  set (L := String.length data).
  assert (HL : Z.of_N (N.of_nat L) = Z.of_nat L) by apply nat_N_Z.
  pose proof (Zle_0_nat L) as Hpos.
  pose proof (Z.div_mod (3 * Z.of_nat L + 2097152) 4194304 ltac:(lia)) as Hdm.
  pose proof (Z.mod_pos_bound (3 * Z.of_nat L + 2097152) 4194304 ltac:(lia)) as Hmod.
  split; split; intros H; lia.
Qed.

(** ** [sanitizeFileName] on names *)

(** A non-empty name keeps its length up to 64 characters, so the result is
    never empty; and the names that come back unchanged are exactly those
    of at most 64 characters, all in the file-name class. *)
Theorem sanitizeFileName_length_and_fixed_names (now : N) (f : string) :
  f <> "" ->
  String.length (sanitizeFileName now (Some f)) = Nat.min 64 (String.length f) /\
  sanitizeFileName now (Some f) <> "" /\
  (sanitizeFileName now (Some f) = f
   <-> String.length f <= 64 /\ all_chars filename_char f = true).
Proof.
  intros Hf. destruct f as [|c f]; [congruence|].
  rewrite sanitizeFileName_name.
  assert (Hlen : forall cls r s,
             String.length (Js.replace_class cls r s) = String.length s).
  { intros cls r s. induction s as [|a s IH]; cbn; [reflexivity | now rewrite IH]. }
  split; [now rewrite length_substring0, Hlen|].
  split; [unfold Js.substring0; cbn; discriminate|].
  split.
  - intros E. split.
    + rewrite <- E at 1. rewrite length_substring0. apply Nat.le_min_l.
    + rewrite <- E. apply all_chars_substring0, replace_class_safe.
  - intros [Hshort Hsafe].
    rewrite (replace_class_fixed _ Hsafe). now apply substring0_short.
Qed.

Lemma sanitizeFileName_length_and_fixed_names_witness :
  String.length (sanitizeFileName 0 (Some "IMG-2024_01.final.jpg"))
  = Nat.min 64 (String.length "IMG-2024_01.final.jpg") /\
  sanitizeFileName 0 (Some "IMG-2024_01.final.jpg") <> "" /\
  (sanitizeFileName 0 (Some "IMG-2024_01.final.jpg") = "IMG-2024_01.final.jpg"
   <-> String.length "IMG-2024_01.final.jpg" <= 64 /\
       all_chars filename_char "IMG-2024_01.final.jpg" = true).
Proof.
  apply (sanitizeFileName_length_and_fixed_names 0 "IMG-2024_01.final.jpg").
  discriminate.
Defined.

(** ** [generateCaption] on short senders *)

(** When the two lines fit in 200 characters the caption is the whole
    template: header, sender, and the date as the runtime formats the
    timestamp taken in seconds. *)
Theorem generateCaption_untruncated (toLocaleString : Z -> string)
    (from : string) (timestamp : Z) :
  34 + String.length from + String.length (toLocaleString (timestamp * 1000)%Z)
  <= 200 ->
  generateCaption toLocaleString from timestamp
  = "Media from WhatsApp:" ++ Js.nl ++ "From: " ++ from ++ Js.nl ++ "Time: "
    ++ toLocaleString (timestamp * 1000)%Z.
Proof.
  intros Hfit. unfold generateCaption. apply substring0_short.
  rewrite !length_append. cbn [String.length Js.nl]. lia.
Qed.

Lemma generateCaption_untruncated_witness :
  generateCaption (fun _ => "11/14/2023, 10:13:20 PM") "989170000000@c.us" 1700000000
  = "Media from WhatsApp:" ++ Js.nl ++ "From: " ++ "989170000000@c.us" ++ Js.nl
    ++ "Time: " ++ "11/14/2023, 10:13:20 PM".
Proof.
  apply (generateCaption_untruncated (fun _ => "11/14/2023, 10:13:20 PM")
           "989170000000@c.us" 1700000000).
  cbn. lia.
Defined.

(** ** [getTelegramSendMethod] on any kind *)

(** Each kind-specific method is chosen for its kind only, spelled exactly;
    every other string, supported kind or not, gets [sendDocument]. *)
Theorem getTelegramSendMethod_cases (type : string) :
  (getTelegramSendMethod type = "sendPhoto" <-> type = "image") /\
  (getTelegramSendMethod type = "sendVideo" <-> type = "video") /\
  (getTelegramSendMethod type = "sendAudio" <-> type = "audio") /\
  (getTelegramSendMethod type = "sendDocument"
   <-> type <> "image" /\ type <> "video" /\ type <> "audio").
Proof.
  unfold getTelegramSendMethod.
  destruct (String.eqb_spec type "image") as [->|Hi].
  { repeat split; try discriminate; try reflexivity; intros; intuition congruence. }
  destruct (String.eqb_spec type "video") as [->|Hv].
  { repeat split; try discriminate; try reflexivity; intros; intuition congruence. }
  destruct (String.eqb_spec type "audio") as [->|Ha].
  { repeat split; try discriminate; try reflexivity; intros; intuition congruence. }
  repeat split; try discriminate; auto; intros; congruence.
Qed.

Example getTelegramSendMethod_case_sensitive :
  getTelegramSendMethod "Image" = "sendDocument" /\
  getTelegramSendMethod "ptt" = "sendDocument".
Proof. split; reflexivity. Qed.

(** ** [sendMediaToTelegram] for any caller *)

(** Whatever it is given and whatever happened before, [sendMediaToTelegram]
    calls the Telegram client one to three times, always with the same
    arguments: the method of the kind, the configured chat, the media, and
    the caption cut to 200 characters.  It returns as soon as a call is
    accepted, and throws the third error when three calls are rejected. *)
Theorem sendMediaToTelegram_delivers (env : ProcessEnv) (rt : Runtime)
    (mediaBuffer mimeType fileName caption mediaType : string) (w : World nat) :
  let options :=
    {| opt_caption := Js.substring0 200 caption;
       opt_contentType := mimeType;
       opt_filename := fileName |} in
  let call :=
    telegram_send (getTelegramSendMethod mediaType) (TELEGRAM_USER_ID env)
      mediaBuffer options in
  let answer n :=
    telegramBot rt n (getTelegramSendMethod mediaType) (TELEGRAM_USER_ID env)
      mediaBuffer options in
  let run :=
    sendMediaToTelegram env rt mediaBuffer mimeType fileName caption mediaType w in
  String.length (opt_caption options) <= 200 /\
  exists n,
    1 <= n <= RETRY_ATTEMPTS /\
    deliveries (trace (snd run)) = (deliveries (trace w) ++ List.repeat call n)%list /\
    ext (snd run) = ext w + n /\
    (forall j, j < n - 1 -> answer (ext w + j) <> None) /\
    ((fst run = Returned tt /\ answer (ext w + (n - 1)) = None) \/
     (n = RETRY_ATTEMPTS /\
      exists e, fst run = Thrown e /\ answer (ext w + (n - 1)) = Some e)).
Proof.
  cbn zeta. split; [cbn [opt_caption]; rewrite length_substring0; apply Nat.le_min_l|].
  unfold sendMediaToTelegram, withRetry, RETRY_ATTEMPTS. cbn [withRetry_from].
  unfold bind, try_catch, ret, emit, telegram_call. cbn [trace ext fst snd].
  destruct (telegramBot rt (ext w) _ _ _ _) as [e1|] eqn:A0.
  2:{ exists 1. cbn [fst snd trace ext]. unfold deliveries.
      rewrite !flat_map_app. cbn. rewrite !List.app_nil_r, Nat.add_0_r.
      repeat split; try lia. left. split; [reflexivity | exact A0]. }
  cbn [Nat.eqb Nat.sub Nat.add trace ext fst snd].
  destruct (telegramBot rt (S (ext w)) _ _ _ _) as [e2|] eqn:A1.
  2:{ exists 2. cbn [fst snd trace ext]. unfold deliveries.
      rewrite !flat_map_app. cbn. rewrite !List.app_nil_r, <- !List.app_assoc.
      replace (ext w + 1) with (S (ext w)) by lia.
      repeat split; try lia.
      - intros j Hj. replace (ext w + j) with (ext w) by lia. congruence.
      - left. split; [reflexivity | exact A1]. }
  cbn [Nat.eqb Nat.sub Nat.add trace ext fst snd].
  destruct (telegramBot rt (S (S (ext w))) _ _ _ _) as [e3|] eqn:A2.
  - exists 3. cbn [fst snd trace ext]. unfold deliveries.
    rewrite !flat_map_app. cbn. rewrite !List.app_nil_r, <- !List.app_assoc.
    replace (ext w + 2) with (S (S (ext w))) by lia.
    repeat split; try lia.
    + intros [|[|j]] Hj; [| |lia].
      * rewrite Nat.add_0_r. congruence.
      * replace (ext w + 1) with (S (ext w)) by lia. congruence.
    + right. split; [reflexivity|]. exists e3. split; [reflexivity | exact A2].
  - exists 3. cbn [fst snd trace ext]. unfold deliveries.
    rewrite !flat_map_app. cbn. rewrite !List.app_nil_r, <- !List.app_assoc.
    replace (ext w + 2) with (S (S (ext w))) by lia.
    repeat split; try lia.
    + intros [|[|j]] Hj; [| |lia].
      * rewrite Nat.add_0_r. congruence.
      * replace (ext w + 1) with (S (ext w)) by lia. congruence.
    + left. split; [reflexivity | exact A2].
Qed.

(** * The order of a run *)

(** ** Where [withRetry] warns and waits *)

Lemma withRetry_from_unfold {U A : Type} (operation : Async U A)
    (attempts todo i : nat) (w : World U) :
  withRetry_from operation attempts (S todo) i w
  = match operation w with
    | (Returned v, w1) => (Returned (Some v), w1)
    | (Thrown e, w1) =>
        if (i =? attempts - 1)%nat then (Thrown e, w1)
        else
          withRetry_from operation attempts todo (i + 1)
            {| trace := (trace w1 ++ between_attempts attempts (i + 1) e)%list;
               ext := ext w1 |}
    end.
Proof.
  cbn [withRetry_from]. unfold try_catch, bind, ret, emit.
  destruct (operation w) as [[v|e] w1]; [reflexivity|].
  destruct (i =? attempts - 1)%nat; [reflexivity|].
  cbn [trace ext]. unfold between_attempts, retry_warning.
  now rewrite <- List.app_assoc.
Qed.

Lemma observed_call {U A : Type} (op : Async U A)
    (w : World (U * list (Observation A))) :
  observations (snd (observed op w))
  = (observations w
     ++ [{| before := trace w;
            outcome := fst (observed op w);
            after := trace (snd (observed op w)) |}])%list.
Proof.
  unfold observed, observations.
  destruct (op _) as [r w1]. reflexivity.
Qed.

(** The whole run of the loop from counter [i], as a chain of observations. *)
Lemma observed_run {U A : Type} (op : Async U A) (attempts : nat)
    (todo i : nat) (w : World (U * list (Observation A))) :
  i + todo = attempts ->
  exists news,
    observations (snd (withRetry_from (observed op) attempts todo i w))
    = (observations w ++ news)%list /\
    retry_chain attempts (S i) (trace w) news
      (trace (snd (withRetry_from (observed op) attempts todo i w)))
      (fst (withRetry_from (observed op) attempts todo i w)).
Proof.
  revert i w. induction todo as [|todo IH]; intros i w Hi.
  - exists []. cbn. rewrite List.app_nil_r. repeat split. lia.
  - rewrite withRetry_from_unfold.
    pose proof (observed_call op w) as Hc.
    destruct (observed op w) as [[v|e] w1]; cbn [fst snd] in *.
    + eexists [_]. split; [exact Hc|]. cbn. repeat split. lia.
    + destruct (Nat.eqb_spec i (attempts - 1)) as [Hlast|Hmore]; cbn [fst snd].
      * eexists [_]. split; [exact Hc|]. cbn [retry_chain outcome before after].
        replace (S i =? attempts)%nat with true
          by (symmetry; apply Nat.eqb_eq; lia).
        repeat split. lia.
      * set (w2 := {| trace := _; ext := ext w1 |}).
        destruct (IH (i + 1) w2 ltac:(lia)) as (news & Hobs & Hchain).
        set (run := withRetry_from _ _ _ _ _) in *.
        change (observations w2) with (observations w1) in Hobs.
        rewrite Hc, <- List.app_assoc in Hobs.
        eexists (_ :: news). split; [exact Hobs|].
        cbn [retry_chain outcome before after].
        replace (S i =? attempts)%nat with false
          by (symmetry; apply Nat.eqb_neq; lia).
        split; [lia|]. split; [reflexivity|]. split.
        -- intros ->. cbn in Hchain. lia.
        -- unfold w2 in Hchain. cbn [trace] in Hchain.
           replace (i + 1) with (S i) in Hchain by lia. exact Hchain.
Qed.

Section Chains.
Context {A : Type} (attempts : nat).

Lemma retry_chain_length (obs : list (Observation A)) :
  forall n start final r,
    retry_chain attempts n start obs final r ->
    obs <> [] -> n + List.length obs <= S attempts.
Proof.
  induction obs as [|o rest IH]; intros n start final r H Hne; [congruence|].
  cbn [retry_chain] in H. destruct H as (Hn & _ & H).
  destruct (outcome o) as [v|e].
  - destruct H as (-> & _). cbn. lia.
  - destruct (n =? attempts)%nat.
    + destruct H as (-> & _). cbn. lia.
    + destruct H as (Hrest & H). specialize (IH _ _ _ _ H Hrest). cbn. lia.
Qed.

Lemma retry_chain_first (obs : list (Observation A)) (n : nat)
    (start final : list Effect) (r : Outcome (option A)) (first : Observation A) :
  retry_chain attempts n start obs final r ->
  nth_error obs 0 = Some first -> before first = start.
Proof.
  destruct obs as [|o rest]; cbn; [discriminate|].
  intros (_ & H & _) E. now injection E as <-.
Qed.

Lemma retry_chain_gaps (obs : list (Observation A)) :
  forall n start final r,
    retry_chain attempts n start obs final r ->
    forall j o o',
      nth_error obs j = Some o -> nth_error obs (S j) = Some o' ->
      exists e,
        outcome o = Thrown e /\
        before o' = (after o ++ between_attempts attempts (n + j) e)%list.
Proof.
  induction obs as [|o1 rest IH]; intros n start final r H j o o' Ho Ho'.
  - destruct j; discriminate.
  - cbn [retry_chain] in H. destruct H as (_ & _ & H).
    destruct (outcome o1) as [v|e] eqn:Eo.
    + destruct H as (-> & _). destruct j; discriminate.
    + destruct (n =? attempts)%nat.
      * destruct H as (-> & _). destruct j; discriminate.
      * destruct H as (_ & H). destruct j as [|j].
        -- cbn in Ho. injection Ho as <-. exists e. split; [exact Eo|].
           rewrite Nat.add_0_r. cbn in Ho'.
           exact (retry_chain_first rest (S n) _ final r o' H Ho').
        -- cbn in Ho, Ho'.
           destruct (IH _ _ _ _ H j o o' Ho Ho') as (e' & He' & Hb).
           exists e'. split; [exact He'|].
           now replace (n + S j) with (S n + j) by lia.
Qed.

Lemma retry_chain_last (obs : list (Observation A)) :
  forall n start final r,
    retry_chain attempts n start obs final r ->
    forall o,
      nth_error obs (List.length obs - 1) = Some o ->
      final = after o /\
      match outcome o with
      | Returned v => r = Returned (Some v)
      | Thrown e => r = Thrown e /\ n + List.length obs = S attempts
      end.
Proof.
  induction obs as [|o1 rest IH]; intros n start final r H o Ho.
  - discriminate.
  - cbn [retry_chain] in H. destruct H as (_ & _ & H).
    destruct (outcome o1) as [v|e] eqn:Eo.
    + destruct H as (-> & -> & ->). cbn in Ho. injection Ho as <-.
      rewrite Eo. auto.
    + destruct (Nat.eqb_spec n attempts) as [Hn|Hn].
      * destruct H as (-> & -> & ->). cbn in Ho. injection Ho as <-.
        rewrite Eo. cbn. split; [reflexivity|]. split; [reflexivity | lia].
      * destruct H as (Hrest & H).
        destruct rest as [|o2 rest]; [congruence|].
        cbn [List.length] in Ho |- *.
        replace (S (S (List.length rest)) - 1) with (S (List.length rest)) in Ho by lia.
        cbn [nth_error] in Ho.
        replace (List.length rest) with (List.length (o2 :: rest) - 1) in Ho
          by (cbn; lia).
        destruct (IH _ _ _ _ H o Ho) as (Hfinal & Hout).
        split; [exact Hfinal|].
        destruct (outcome o); [exact Hout|].
        destruct Hout as (Hr & Hlen). split; [exact Hr|].
        cbn [List.length] in Hlen. lia.
Qed.

End Chains.

(** C5, as the code has it.  In every run of [withRetry], with every call
    of the action observed: no more calls than attempts are made, the first
    one at the start of the run; whenever a call is followed by another one
    it has failed, and what stands between the end of the one and the start
    of the other is exactly the warning for that failure, with the number of
    the attempt (from 1), the number of attempts and the error's message,
    and the timer; and the run ends where its last call ends, with nothing
    written after it: a success is returned, and the failure of the last
    attempt is thrown, without a warning, after exactly [attempts] calls. *)
Theorem withRetry_warns_between_attempts {U A : Type} (op : Async U A)
    (attempts : nat) (w : World U) :
  let run := withRetry (observed op) attempts (unobserved w) in
  let seen := observations (snd run) in
  List.length seen <= attempts /\
  (0 < attempts ->
   exists first, nth_error seen 0 = Some first /\ before first = trace w) /\
  (forall j o o',
     nth_error seen j = Some o -> nth_error seen (S j) = Some o' ->
     exists e,
       outcome o = Thrown e /\
       before o'
       = (after o
          ++ [console_warn (retry_warning attempts (S j) e);
              setTimeout RETRY_DELAY_MS])%list) /\
  (forall o,
     nth_error seen (List.length seen - 1) = Some o ->
     trace (snd run) = after o /\
     match outcome o with
     | Returned v => fst run = Returned (Some v)
     | Thrown e => fst run = Thrown e /\ List.length seen = attempts
     end).
Proof.
  cbn zeta. unfold withRetry.
  destruct (observed_run op attempts attempts 0 (unobserved w) eq_refl)
    as (news & Hobs & Hchain).
  set (run := withRetry_from _ _ _ _ _) in *.
  change (observations (unobserved w)) with (@nil (Observation A)) in Hobs.
  change (trace (unobserved w)) with (trace w) in Hchain.
  cbn [app] in Hobs. rewrite Hobs.
  split; [|split; [|split]].
  - destruct news as [|o rest]; [cbn; lia|].
    pose proof (retry_chain_length attempts _ _ _ _ _ Hchain ltac:(discriminate)).
    lia.
  - intros Hpos. destruct news as [|o rest].
    + cbn in Hchain. lia.
    + exists o. split; [reflexivity|].
      exact (retry_chain_first attempts _ _ _ _ _ o Hchain eq_refl).
  - intros j o o' Ho Ho'.
    exact (retry_chain_gaps attempts _ _ _ _ _ Hchain j o o' Ho Ho').
  - intros o Ho.
    destruct (retry_chain_last attempts _ _ _ _ _ Hchain o Ho) as (Hfinal & Hout).
    split; [exact Hfinal|].
    destruct (outcome o); [exact Hout|].
    destruct Hout as (Hr & Hlen). split; [exact Hr | lia].
Qed.

Lemma withRetry_warns_between_attempts_witness :
  let run := withRetry (observed always_failing) 3
               (unobserved {| trace := []; ext := tt |}) in
  fst run = Thrown timeout_error /\
  List.length (observations (snd run)) = 3 /\
  trace (snd run)
  = [console_warn "⚠️ Retry 1/3 due to error: ETIMEDOUT"; setTimeout 1000;
     console_warn "⚠️ Retry 2/3 due to error: ETIMEDOUT"; setTimeout 1000].
Proof.
  pose proof (withRetry_warns_between_attempts always_failing 3
                {| trace := []; ext := tt |}) as (_ & _ & _ & Hlast).
  cbn zeta in Hlast.
  set (run := withRetry (observed always_failing) 3 _) in *.
  destruct (Hlast {| before := [console_warn "⚠️ Retry 1/3 due to error: ETIMEDOUT";
                                setTimeout 1000;
                                console_warn "⚠️ Retry 2/3 due to error: ETIMEDOUT";
                                setTimeout 1000];
                     outcome := Thrown timeout_error;
                     after := [console_warn "⚠️ Retry 1/3 due to error: ETIMEDOUT";
                               setTimeout 1000;
                               console_warn "⚠️ Retry 2/3 due to error: ETIMEDOUT";
                               setTimeout 1000] |} eq_refl)
    as (Hfinal & Hr & Hlen).
  cbn zeta. split; [exact Hr|]. split; [exact Hlen | exact Hfinal].
Defined.

(** The delay between attempts is constant and stands between the calls:
    in every run of [withRetry] nothing is awaited before the first call,
    [RETRY_DELAY_MS] is awaited exactly once between the end of a call and
    the start of the next, and nothing is awaited after the last call. *)
Theorem withRetry_delay_between_calls {U A : Type} (op : Async U A)
    (attempts : nat) (w : World U) :
  let run := withRetry (observed op) attempts (unobserved w) in
  let seen := observations (snd run) in
  (forall first, nth_error seen 0 = Some first -> before first = trace w) /\
  (forall j o o',
     nth_error seen j = Some o -> nth_error seen (S j) = Some o' ->
     exists gap,
       before o' = (after o ++ gap)%list /\ timers gap = [RETRY_DELAY_MS]) /\
  (forall o,
     nth_error seen (List.length seen - 1) = Some o -> trace (snd run) = after o) /\
  (seen = [] -> trace (snd run) = trace w).
Proof.
  cbn zeta. unfold withRetry.
  destruct (observed_run op attempts attempts 0 (unobserved w) eq_refl)
    as (news & Hobs & Hchain).
  set (run := withRetry_from _ _ _ _ _) in *.
  change (observations (unobserved w)) with (@nil (Observation A)) in Hobs.
  change (trace (unobserved w)) with (trace w) in Hchain.
  cbn [app] in Hobs. rewrite Hobs.
  split; [|split; [|split]].
  - intros first Hfirst.
    exact (retry_chain_first attempts _ _ _ _ _ first Hchain Hfirst).
  - intros j o o' Ho Ho'.
    destruct (retry_chain_gaps attempts _ _ _ _ _ Hchain j o o' Ho Ho')
      as (e & _ & Hgap).
    eexists. split; [exact Hgap | reflexivity].
  - intros o Ho.
    now destruct (retry_chain_last attempts _ _ _ _ _ Hchain o Ho).
  - intros ->. cbn in Hchain. now destruct Hchain as (_ & -> & _).
Qed.

Lemma withRetry_delay_between_calls_witness :
  let run := withRetry (observed third_time_lucky) 5
               (unobserved {| trace := []; ext := 0 |}) in
  List.length (observations (snd run)) = 3 /\
  exists gap,
    [console_warn "⚠️ Retry 1/5 due to error: ETIMEDOUT"; setTimeout 1000]
    = ([] ++ gap)%list /\
    timers gap = [RETRY_DELAY_MS].
Proof.
  pose proof (withRetry_delay_between_calls third_time_lucky 5
                {| trace := []; ext := 0 |}) as (_ & Hgaps & _).
  cbn zeta in *. split; [reflexivity|].
  exact (Hgaps 0
           {| before := []; outcome := Thrown timeout_error; after := [] |}
           {| before := [console_warn "⚠️ Retry 1/5 due to error: ETIMEDOUT";
                         setTimeout 1000];
              outcome := Thrown timeout_error;
              after := [console_warn "⚠️ Retry 1/5 due to error: ETIMEDOUT";
                        setTimeout 1000] |}
           eq_refl eq_refl).
Defined.

(** ** The order of the handler's calls *)

(** The calls of the Telegram client, the warnings and the timers of the
    handler stand in one block and in this order: the call, and for every
    further call the warning for the error that the client just answered,
    one timer of [RETRY_DELAY_MS], and the call again.  Before the block and
    after it there is no call, no warning and no timer; a run without a call
    has no warning and no timer at all. *)
Theorem handler_retries_in_order (env : ProcessEnv) (rt : Runtime) (msg : Message) :
  (deliveries (handle env rt msg) = [] /\
   warnings (handle env rt msg) = [] /\
   timers (handle env rt msg) = []) \/
  (exists media es pre post,
     handle env rt msg
     = (pre ++ attempts_trace (delivery_of env rt msg media) RETRY_ATTEMPTS 1 es
        ++ post)%list /\
     List.length es < RETRY_ATTEMPTS /\
     (forall j e, nth_error es j = Some e -> answer_to env rt msg media j = Some e) /\
     deliveries pre = [] /\ warnings pre = [] /\ timers pre = [] /\
     deliveries post = [] /\ warnings post = [] /\ timers post = []).
Proof.
  unfold RETRY_ATTEMPTS.
  by_handling env rt msg; try solve [left; repeat split].
  right. exists media.
  by_answers env rt msg media.
  - exists [e1; e2]. do 2 eexists. split; [reflexivity|].
    split; [cbn; lia|]. split; [|repeat split].
    intros [|[|[|j]]] e E; cbn in E; try discriminate; injection E as <-; assumption.
  - exists [e1; e2]. do 2 eexists. split; [reflexivity|].
    split; [cbn; lia|]. split; [|repeat split].
    intros [|[|[|j]]] e E; cbn in E; try discriminate; injection E as <-; assumption.
  - exists [e1]. do 2 eexists. split; [reflexivity|].
    split; [cbn; lia|]. split; [|repeat split].
    intros [|[|j]] e E; cbn in E; try discriminate; injection E as <-; assumption.
  - exists []. do 2 eexists. split; [reflexivity|].
    split; [cbn; lia|]. split; [|repeat split].
    intros [|j] e E; discriminate.
Qed.

(** ** The sender filter on a phone in the expected format *)

Lemma target_in_format (env : ProcessEnv) :
  plus_leads_or_absent (WHATSAPP_PHONE env) = true ->
  target env = spec_target env.
Proof.
  unfold target, spec_target, plus_leads_or_absent. intros H. f_equal.
  destruct (WHATSAPP_PHONE env) as [|c digits]; [reflexivity|].
  destruct (Ascii.eqb_spec c "+") as [->|Hc]; [reflexivity|].
  apply replace_first_no_plus.
  destruct c as [[] [] [] [] [] [] [] []]; try exact H. congruence.
Qed.

(** C1.  With the configured phone in its expected format, the ['+'] in
    front (or no ['+'] at all), a message whose sender is not that phone
    with the leading ['+'] dropped and [@c.us] appended makes the handler
    write one log line and do nothing else: no reply, no call of the
    Telegram client. *)
Theorem foreign_sender_logged_only (env : ProcessEnv) (rt : Runtime) (msg : Message) :
  plus_leads_or_absent (WHATSAPP_PHONE env) = true ->
  msg_from msg <> spec_target env ->
  handle env rt msg
  = [console_log ("⏩ Skipping message from " ++ msg_from msg ++ ": Not from "
                  ++ WHATSAPP_PHONE env)] /\
  replies (handle env rt msg) = [] /\
  deliveries (handle env rt msg) = [].
Proof.
  intros Hformat Hfrom.
  rewrite <- (target_in_format env Hformat) in Hfrom.
  rewrite (handle_foreign env rt msg Hfrom). repeat split.
Qed.

Lemma foreign_sender_logged_only_witness :
  handle sample_env accepting_runtime stranger_message
  = [console_log "⏩ Skipping message from 12025550123@c.us: Not from +989170000000"] /\
  replies (handle sample_env accepting_runtime stranger_message) = [] /\
  deliveries (handle sample_env accepting_runtime stranger_message) = [].
Proof.
  apply (foreign_sender_logged_only sample_env accepting_runtime stranger_message).
  - reflexivity.
  - discriminate.
Defined.

(** The placeholder the phone defaults to is in the format as well. *)
Example default_phone_in_format :
  plus_leads_or_absent
    (WHATSAPP_PHONE {| env_TELEGRAM_USER_ID := "123456789";
                       env_WHATSAPP_PHONE := None |}) = true /\
  plus_leads_or_absent (WHATSAPP_PHONE inner_plus_env) = false.
Proof. split; reflexivity. Qed.
